(** * JsSIP.UA: the SIP user agent of src/UA.js

    A shallow embedding of the user-agent engine: the public API
    (register, deregister, call, message, stop, start), the transport
    event handlers, the request dispatcher [receiveRequest], the
    registry look-ups [findSession] / [findDialog], the failover
    selector [getNextWsServer], the configuration loader [loadConfig]
    with its checker table, and the constructor.

    Conventions of the embedding.
    - [this] is an explicit [UA] record threaded through a small
      state/writer/exception monad [M].
    - Every call that leaves UA.js (a reply on the request, a constructor
      or a method of a collaborator, [emit], [window.setTimeout]) is
      recorded, in program order, as an [effect] of the trace.  What the
      collaborator does inside that call is given by its own source file.
    - [console.log] / [console.warn] / [console.error] lines are
      diagnostics and are left out of the trace.
    - Objects that UA.js only holds and passes on (sessions, dialogs,
      applicants, transactions) are opaque identities.
    - The candidate servers live in [configuration.outbound_proxy_set];
      a transport's [server] is a reference (an index) into that array,
      so a status written through [transport.server] is seen by the
      selector.  Weights and statuses are the integers that the
      configuration loader leaves there.
    - The registries ([dialogs], [sessions], [applicants], the
      transaction tables) are plain objects used as maps from strings.
      A look-up [obj[key]] finds the property filed under [key] and,
      when there is none, the member of that name that every object
      inherits from [Object.prototype] ([toString], [constructor],
      ...); which names those are is given by the surroundings.
    - A [for (k in obj)] loop visits the filed properties only (the
      inherited members are not enumerable), each once.  The order
      inside one loop is the engine's property order in the source and
      the order of [map_to_list] here; the properties below are about
      which calls are made and about the order of the loops, not about
      the order inside one loop.
    - [Math.random()] is a rational of the surroundings, and the index
      drawn from it is the floor of the exact product, where the source
      rounds the product to a double first; the properties of the
      selector below hold for whichever tied candidate is drawn.
    - [isConnected] only reads the transport's own flag and is not
      embedded. *)

From Stdlib Require Import QArith Qround.
From stdpp Require Import base option list strings gmap fin_maps.

Local Open Scope string_scope.
Local Open Scope list_scope.
Local Open Scope Z_scope.

(** ** Values *)

(** A JavaScript string-or-undefined property ([None] is [undefined]). *)
Definition js_string := option string.

(** ToBoolean on such a value: [undefined] and the empty string are falsy. *)
Definition truthy (v : js_string) : bool :=
  match v with
  | Some s => negb (bool_decide (s = ""))
  | None => false
  end.

(** ToString, as applied by [+] when the other operand is a string. *)
Definition to_string (v : js_string) : string :=
  match v with
  | Some s => s
  | None => "undefined"
  end.

(** What [obj[key]] gives on a plain object used as a registry: the
    property filed under the key, or a member inherited from
    [Object.prototype]; [undefined] is the [None] of an [option].  Every
    inherited member is a function or an object, so it is truthy, and
    none of them has a [receiveRequest] method. *)
Inductive property (A : Type) :=
| Own (a : A)
| Inherited (name : string).
Arguments Own {A} a.
Arguments Inherited {A} name.

(** ** The constant table [JsSIP.c]

    The table is defined outside UA.js; the engine is parametrised by it. *)
Record Constants := {
  INVITE : string;
  ACK : string;
  OPTIONS : string;
  MESSAGE : string;
  BYE : string;
  CANCEL : string;
  NOTIFY : string;
  REASON_200 : string;
  REASON_404 : string;
  REASON_405 : string;
  REASON_410 : string;
  REASON_481 : string;
  ALLOWED_METHODS : string;
  ACCEPTED_BODY_TYPES : string;
  UA_STATUS_INIT : Z;
  UA_STATUS_READY : Z;
  UA_STATUS_USER_CLOSED : Z;
  UA_STATUS_NOT_READY : Z;
  UA_CONFIGURATION_ERROR : Z;
  UA_NETWORK_ERROR : Z;
  WS_SERVER_READY : Z;
  WS_SERVER_DISCONNECTED : Z;
  WS_SERVER_ERROR : Z
}.

(** ** Objects *)

(** An entry of [configuration.outbound_proxy_set]. *)
Record WsServer := {
  ws_uri : string;
  weight : Z;
  ws_status : Z
}.

Definition set_ws_status (v : Z) (s : WsServer) : WsServer :=
  {| ws_uri := ws_uri s; weight := weight s; ws_status := v |}.

(** A reference to an entry of the candidate array. *)
Abbreviation server_ref := nat (only parsing).

Record Transport := {
  transport_id : nat;
  server : server_ref
}.

Inductive Session := SessionObj (id : nat).
Inductive Dialog := DialogObj (id : nat).
Inductive Applicant := ApplicantObj (id : nat).
Inductive Transaction := TransactionObj (id : nat).

Record Registrator := {
  registered : bool
}.

Record Configuration := {
  user : js_string;
  domain : string;
  auto_register : bool;
  outbound_proxy_set : list WsServer
}.

Record Transactions := {
  nist : gmap string Transaction;
  nict : gmap string Transaction;
  ist : gmap string Transaction;
  ict : gmap string Transaction
}.

Record UA := {
  configuration : Configuration;
  dialogs : gmap string Dialog;
  registrator : option Registrator;
  applicants : gmap string Applicant;
  sessions : gmap string Session;
  transport : option Transport;
  contact_pub_gruu : js_string;
  status : Z;
  error : option Z;
  transactions : Transactions;
  shutdownGraceTimer : option Z
}.

Record IncomingRequest := {
  method : string;
  ruri_user : js_string;
  call_id : string;
  from_tag : js_string;
  to_tag : js_string
}.

(** Field updates of [this]. *)
Definition set_status (v : Z) (ua : UA) : UA :=
  {| configuration := configuration ua; dialogs := dialogs ua;
     registrator := registrator ua; applicants := applicants ua;
     sessions := sessions ua; transport := transport ua;
     contact_pub_gruu := contact_pub_gruu ua; status := v;
     error := error ua; transactions := transactions ua;
     shutdownGraceTimer := shutdownGraceTimer ua |}.

Definition set_error (v : option Z) (ua : UA) : UA :=
  {| configuration := configuration ua; dialogs := dialogs ua;
     registrator := registrator ua; applicants := applicants ua;
     sessions := sessions ua; transport := transport ua;
     contact_pub_gruu := contact_pub_gruu ua; status := status ua;
     error := v; transactions := transactions ua;
     shutdownGraceTimer := shutdownGraceTimer ua |}.

Definition set_transport (t : Transport) (ua : UA) : UA :=
  {| configuration := configuration ua; dialogs := dialogs ua;
     registrator := registrator ua; applicants := applicants ua;
     sessions := sessions ua; transport := Some t;
     contact_pub_gruu := contact_pub_gruu ua; status := status ua;
     error := error ua; transactions := transactions ua;
     shutdownGraceTimer := shutdownGraceTimer ua |}.

Definition set_registrator (r : Registrator) (ua : UA) : UA :=
  {| configuration := configuration ua; dialogs := dialogs ua;
     registrator := Some r; applicants := applicants ua;
     sessions := sessions ua; transport := transport ua;
     contact_pub_gruu := contact_pub_gruu ua; status := status ua;
     error := error ua; transactions := transactions ua;
     shutdownGraceTimer := shutdownGraceTimer ua |}.

Definition set_shutdownGraceTimer (h : Z) (ua : UA) : UA :=
  {| configuration := configuration ua; dialogs := dialogs ua;
     registrator := registrator ua; applicants := applicants ua;
     sessions := sessions ua; transport := transport ua;
     contact_pub_gruu := contact_pub_gruu ua; status := status ua;
     error := error ua; transactions := transactions ua;
     shutdownGraceTimer := Some h |}.

Definition set_outbound_proxy_set (l : list WsServer) (ua : UA) : UA :=
  {| configuration :=
       {| user := user (configuration ua); domain := domain (configuration ua);
          auto_register := auto_register (configuration ua);
          outbound_proxy_set := l |};
     dialogs := dialogs ua;
     registrator := registrator ua; applicants := applicants ua;
     sessions := sessions ua; transport := transport ua;
     contact_pub_gruu := contact_pub_gruu ua; status := status ua;
     error := error ua; transactions := transactions ua;
     shutdownGraceTimer := shutdownGraceTimer ua |}.

(** [server.status = v] through a reference into the candidate array. *)
Definition write_server_status (r : server_ref) (v : Z) (ua : UA) : UA :=
  set_outbound_proxy_set
    (alter (set_ws_status v) r (outbound_proxy_set (configuration ua))) ua.

(** ** Effects and exceptions *)

Inductive callback :=
| cb_transport_disconnect.

Inductive effect :=
| request_reply_sl (code : Z) (reason : string)
| request_reply (code : Z) (reason : string) (headers : list (string * string))
| Transactions_checkTransaction
| new_InviteServerTransaction
| new_NonInviteServerTransaction
| messageReceiver
| new_IncomingSession
| new_OutgoingSession (target : string)
| new_MessageSender (target body : string) (content_type : js_string)
| new_Transport (srv : option server_ref)
| new_Registrator
| session_receiveRequest (s : Session)
| session_terminate (s : Session)
| session_onTransportError (s : Session)
| dialog_receiveRequest (d : Dialog)
| applicant_close (a : Applicant)
| transaction_onTransportError (t : Transaction)
| registrator_register
| registrator_deregister (all : bool)
| registrator_close
| registrator_onTransportConnected
| registrator_onTransportClosed
| transport_connect
| window_setTimeout (f : callback) (delay : string)
| emit (event : string).

Inductive exn :=
| NotReadyError
| WebRtcNotSupportedError
| InvalidTargetError
| TypeError.

Inductive outcome (A : Type) :=
| Return (a : A)
| Throw (e : exn).
Arguments Return {A} a.
Arguments Throw {A} e.

#[global] Instance Session_eq_dec : EqDecision Session.
Proof. solve_decision. Defined.
#[global] Instance Dialog_eq_dec : EqDecision Dialog.
Proof. solve_decision. Defined.
#[global] Instance Applicant_eq_dec : EqDecision Applicant.
Proof. solve_decision. Defined.
#[global] Instance Transaction_eq_dec : EqDecision Transaction.
Proof. solve_decision. Defined.
#[global] Instance callback_eq_dec : EqDecision callback.
Proof. solve_decision. Defined.
#[global] Instance effect_eq_dec : EqDecision effect.
Proof. unfold js_string. solve_decision. Defined.
#[global] Instance exn_eq_dec : EqDecision exn.
Proof. solve_decision. Defined.

(** ** The monad of a method body *)

Definition M (A : Type) : Type := UA → outcome A * UA * list effect.

Definition ret {A} (a : A) : M A := λ ua, (Return a, ua, []).

Definition throw {A} (e : exn) : M A := λ ua, (Throw e, ua, []).

Definition bind {A B} (m : M A) (k : A → M B) : M B := λ ua,
  match m ua with
  | (Return a, ua1, t1) =>
      match k a ua1 with
      | (r, ua2, t2) => (r, ua2, t1 ++ t2)
      end
  | (Throw e, ua1, t1) => (Throw e, ua1, t1)
  end.

(** Read a field of [this]. *)
Definition read {A} (f : UA → A) : M A := λ ua, (Return (f ua), ua, []).

(** Assign to a field of [this]. *)
Definition assign (f : UA → UA) : M unit := λ ua, (Return tt, f ua, []).

(** Call out of the engine. *)
Definition perform (e : effect) : M unit := λ ua, (Return tt, ua, [e]).

Declare Scope ua_scope.
Delimit Scope ua_scope with ua.
Notation "'let*' x ':=' m 'in' k" := (bind m (λ x, k))
  (at level 10, x name, m at level 100, k at level 200) : ua_scope.
Notation "m1 ';;;' m2" := (bind m1 (λ _, m2))
  (at level 100, right associativity) : ua_scope.
Local Open Scope ua_scope.

(** [for (k in obj) body(obj[k])] over an enumeration of the properties. *)
Fixpoint for_in {A} (l : list A) (body : A → M unit) : M unit :=
  match l with
  | [] => ret tt
  | x :: l' => body x ;;; for_in l' body
  end.

(** Projections of a run. *)
Definition result {A} (r : outcome A * UA * list effect) : outcome A := r.1.1.
Definition final {A} (r : outcome A * UA * list effect) : UA := r.1.2.
Definition trace {A} (r : outcome A * UA * list effect) : list effect := r.2.

(** ** What the engine asks of its surroundings

    Values returned by functions defined outside UA.js: the draw of
    [Math.random()], [JsSIP.utils.isWebRtcSupported()],
    [JsSIP.Transactions.checkTransaction(ua, request)],
    [JsSIP.utils.normalizeUri(target, domain)], the handle returned by
    [window.setTimeout], the object built by [new JsSIP.Registrator],
    and the names of the members of [Object.prototype]. *)
Record Env := {
  Object_prototype : string → bool;
  Math_random : Q;
  isWebRtcSupported : bool;
  checkTransaction : UA → IncomingRequest → bool;
  normalizeUri : string → string → js_string;
  setTimeout_handle : Z;
  Registrator_new : Registrator
}.

(** ** The engine *)

Section Engine.

Variable c : Constants.
Variable env : Env.

(** *** Utils *)

(** [obj[key]] on a registry. *)
Definition get_property {A} (obj : gmap string A) (key : string)
    : option (property A) :=
  match obj !! key with
  | Some a => Some (Own a)
  | None => if Object_prototype env key then Some (Inherited key) else None
  end.

(** [JsSIP.UA.prototype.findSession] *)
Definition findSession (request : IncomingRequest)
    : M (option (property Session)) :=
  let* sessions := read sessions in
  let sessionIDa := call_id request +:+ to_string (from_tag request) in
  let sessionA := get_property sessions sessionIDa in
  let sessionIDb := call_id request +:+ to_string (to_tag request) in
  let sessionB := get_property sessions sessionIDb in
  match sessionA with
  | Some a => ret (Some a)
  | None =>
      match sessionB with
      | Some b => ret (Some b)
      | None => ret None
      end
  end.

(** [JsSIP.UA.prototype.findDialog] *)
Definition findDialog (request : IncomingRequest)
    : M (option (property Dialog)) :=
  let* dialogs := read dialogs in
  let id := call_id request +:+ to_string (from_tag request)
                            +:+ to_string (to_tag request) in
  let dialog := get_property dialogs id in
  match dialog with
  | Some d => ret (Some d)
  | None =>
      let id := call_id request +:+ to_string (to_tag request)
                                +:+ to_string (from_tag request) in
      let dialog := get_property dialogs id in
      match dialog with
      | Some d => ret (Some d)
      | None => ret None
      end
  end.

(** One turn of the loop of [getNextWsServer]; [candidates] holds
    references together with the objects they point to. *)
Definition getNextWsServer_step
    (candidates : list (server_ref * WsServer))
    (entry : server_ref * WsServer) : list (server_ref * WsServer) :=
  let outbound_proxy_set := entry.2 in
  if bool_decide (ws_status outbound_proxy_set = 2) then candidates
  else
    match candidates with
    | [] => candidates ++ [entry]
    | first :: _ =>
        if bool_decide (weight first.2 < weight outbound_proxy_set)
        then [entry]
        else if bool_decide (weight outbound_proxy_set = weight first.2)
        then candidates ++ [entry]
        else candidates
    end.

Definition getNextWsServer_candidates (pool : list WsServer)
    : list (server_ref * WsServer) :=
  foldl getNextWsServer_step [] (imap pair pool).

(** [JsSIP.UA.prototype.getNextWsServer]; [undefined] is [None]. *)
Definition getNextWsServer : M (option server_ref) :=
  let* configuration := read configuration in
  let candidates :=
    getNextWsServer_candidates (outbound_proxy_set configuration) in
  let idx :=
    Qfloor (Math_random env * inject_Z (Z.of_nat (length candidates))) in
  ret (if bool_decide (0 ≤ idx)
       then fst <$> candidates !! Z.to_nat idx
       else None).

(** [JsSIP.UA.prototype.closeSessionsOnTransportError] *)
Definition closeSessionsOnTransportError : M unit :=
  let* sessions := read sessions in
  for_in (map_to_list sessions)
    (λ idx, perform (session_onTransportError idx.2)) ;;;
  let* registrator := read registrator in
  match registrator with
  | Some _ => perform registrator_onTransportClosed
  | None => ret tt
  end.

(** *** High level API *)

(** [JsSIP.UA.prototype.networkIsReady] *)
Definition networkIsReady : M unit :=
  let* status := read status in
  let* error := read error in
  if bool_decide (status = UA_STATUS_NOT_READY c)
     && bool_decide (error = Some (UA_NETWORK_ERROR c))
  then
    let* transport := read transport in
    match transport with
    | Some _ => perform transport_connect
    | None => throw TypeError
    end
  else ret tt.

(** [JsSIP.UA.prototype.register] *)
Definition register : M unit :=
  let* status := read status in
  if bool_decide (status = UA_STATUS_READY c) then
    let* registrator := read registrator in
    match registrator with
    | Some _ => perform registrator_register
    | None => throw TypeError
    end
  else throw NotReadyError.

(** [JsSIP.UA.prototype.deregister] *)
Definition deregister (all : bool) : M unit :=
  let* status := read status in
  if bool_decide (status = UA_STATUS_READY c) then
    let* registrator := read registrator in
    match registrator with
    | Some _ => perform (registrator_deregister all)
    | None => throw TypeError
    end
  else throw NotReadyError.

(** [JsSIP.UA.prototype.isRegistered] *)
Definition isRegistered : M bool :=
  let* registrator := read registrator in
  match registrator with
  | Some r => if registered r then ret true else ret false
  | None => ret false
  end.

(** [JsSIP.UA.prototype.call]; the view elements and the media type are
    handed to the session constructor as they come. *)
Definition call (target : string) : M unit :=
  let* status := read status in
  if negb (bool_decide (status = UA_STATUS_READY c)) then throw NotReadyError
  else if negb (isWebRtcSupported env) then throw WebRtcNotSupportedError
  else
    let* configuration := read configuration in
    let target := normalizeUri env target (domain configuration) in
    if negb (truthy target) then throw InvalidTargetError
    else perform (new_OutgoingSession (to_string target)).

(** [JsSIP.UA.prototype.message] *)
Definition message (target body : string) (content_type : js_string)
    : M unit :=
  let* status := read status in
  if negb (bool_decide (status = UA_STATUS_READY c)) then throw NotReadyError
  else
    let* configuration := read configuration in
    let target := normalizeUri env target (domain configuration) in
    if negb (truthy target) then throw InvalidTargetError
    else perform (new_MessageSender (to_string target) body content_type).

(** [JsSIP.UA.prototype.stop] *)
Definition stop : M unit :=
  let* status := read status in
  if negb (bool_decide (status = UA_STATUS_READY c)) then throw NotReadyError
  else
    let* registrator := read registrator in
    match registrator with
    | Some _ => perform registrator_close
    | None => ret tt
    end ;;;
    let* sessions := read sessions in
    for_in (map_to_list sessions)
      (λ session, perform (session_terminate session.2)) ;;;
    let* applicants := read applicants in
    for_in (map_to_list applicants)
      (λ applicant, perform (applicant_close applicant.2)) ;;;
    assign (set_status (UA_STATUS_USER_CLOSED c)) ;;;
    perform (window_setTimeout cb_transport_disconnect "5000") ;;;
    assign (set_shutdownGraceTimer (setTimeout_handle env)).

(** [JsSIP.UA.prototype.start] *)
Definition start : M unit :=
  let* status := read status in
  if bool_decide (status = UA_STATUS_INIT c) then
    let* server := getNextWsServer in
    perform (new_Transport server)
  else if bool_decide (status = UA_STATUS_USER_CLOSED c) then
    assign (set_status (UA_STATUS_READY c)) ;;;
    let* transport := read transport in
    match transport with
    | Some _ => perform transport_connect
    | None => throw TypeError
    end
  else if bool_decide (status = UA_STATUS_READY c) then ret tt
  else throw NotReadyError.

(** *** Event handlers *)

(** [JsSIP.UA.prototype.onTransportClosed] *)
Definition onTransportClosed (transport : Transport) : M unit :=
  assign (write_server_status (server transport) (WS_SERVER_DISCONNECTED c)) ;;;
  let* transactions := read transactions in
  for_in [nict; ict; nist; ist]
    (λ type,
       for_in (map_to_list (type transactions))
         (λ idx, perform (transaction_onTransportError idx.2))) ;;;
  let* pub_gruu := read contact_pub_gruu in
  if negb (truthy pub_gruu) then closeSessionsOnTransportError else ret tt.

(** [JsSIP.UA.prototype.onTransportError] *)
Definition onTransportError (transport : Transport) : M unit :=
  assign (write_server_status (server transport) (WS_SERVER_ERROR c)) ;;;
  let* server := getNextWsServer in
  match server with
  | Some _ => perform (new_Transport server)
  | None =>
      closeSessionsOnTransportError ;;;
      assign (set_status (UA_STATUS_NOT_READY c)) ;;;
      assign (set_error (Some (UA_NETWORK_ERROR c))) ;;;
      perform (emit "disconnect")
  end.

(** [JsSIP.UA.prototype.onTransportConnected] *)
Definition onTransportConnected (transport : Transport) : M unit :=
  assign (set_transport transport) ;;;
  assign (write_server_status (server transport) (WS_SERVER_READY c)) ;;;
  let* status := read status in
  if bool_decide (status = UA_STATUS_USER_CLOSED c) then ret tt
  else
    let* configuration := read configuration in
    (if auto_register configuration then
       let* registrator := read registrator in
       match registrator with
       | Some _ => perform registrator_onTransportConnected
       | None =>
           perform new_Registrator ;;;
           assign (set_registrator (Registrator_new env))
       end
     else ret tt) ;;;
    assign (set_status (UA_STATUS_READY c)) ;;;
    assign (set_error None) ;;;
    perform (emit "connect").

(** *** receiveRequest *)

(** [JsSIP.UA.prototype.receiveRequest].  Calling [receiveRequest] on
    what a look-up found raises a TypeError when that is an inherited
    member. *)
Definition receiveRequest (request : IncomingRequest) : M unit :=
  let method := method request in
  let* configuration := read configuration in
  if negb (bool_decide (ruri_user request = user configuration)) then
    perform (request_reply_sl 404 (REASON_404 c))
  else
    let* this := read id in
    perform Transactions_checkTransaction ;;;
    if checkTransaction env this request then ret tt
    else
      (if bool_decide (method = INVITE c) then
         perform new_InviteServerTransaction
       else if negb (bool_decide (method = ACK c)) then
         perform new_NonInviteServerTransaction
       else ret tt) ;;;
      (if bool_decide (method = OPTIONS c) then
         perform (request_reply 200 (REASON_200 c)
                    [("Allow", ALLOWED_METHODS c);
                     ("Accept", ACCEPTED_BODY_TYPES c)])
       else ret tt) ;;;
      if negb (truthy (to_tag request)) then
        let* registrator := read registrator in
        if match registrator with
           | None => true
           | Some r => negb (registered r)
           end
        then perform (request_reply 410 (REASON_410 c) [])
        else if bool_decide (method = MESSAGE c) then
          perform messageReceiver
        else if bool_decide (method = INVITE c) then
          if negb (isWebRtcSupported env) then ret tt
          else perform new_IncomingSession
        else if bool_decide (method = BYE c) then
          perform (request_reply 481 (REASON_481 c) [])
        else if bool_decide (method = CANCEL c) then
          let* session := findSession request in
          match session with
          | Some (Own s) => perform (session_receiveRequest s)
          | Some (Inherited _) => throw TypeError
          | None => ret tt
          end
        else if bool_decide (method = ACK c) then ret tt
        else perform (request_reply 405 (REASON_405 c) [])
      else
        let* dialog := findDialog request in
        match dialog with
        | Some (Own d) => perform (dialog_receiveRequest d)
        | Some (Inherited _) => throw TypeError
        | None =>
            if bool_decide (method = NOTIFY c) then
              let* session := findSession request in
              match session with
              | Some (Own s) => perform (session_receiveRequest s)
              | Some (Inherited _) => throw TypeError
              | None =>
                  perform (request_reply 481 "Subscription does not exist" [])
              end
            else if negb (bool_decide (method = ACK c)) then
              perform (request_reply 481 (REASON_481 c) [])
            else ret tt
        end.

End Engine.

(** ** Reading a trace *)

(** The replies sent on the request, stateless or through the transaction. *)
Definition is_reply (e : effect) : bool :=
  match e with
  | request_reply_sl _ _ | request_reply _ _ _ => true
  | _ => false
  end.

Definition reply_code (e : effect) : option Z :=
  match e with
  | request_reply_sl code _ | request_reply code _ _ => Some code
  | _ => None
  end.

Definition replies (t : list effect) : list effect := filter is_reply t.

Definition has_code (code : Z) (e : effect) : bool :=
  match reply_code e with
  | Some code' => code' =? code
  | None => false
  end.

Definition replies_with (code : Z) (t : list effect) : list effect :=
  filter (has_code code) t.

(** Every effect of [t] is one of [allowed]. *)
Definition no_effect_but (allowed t : list effect) : Prop :=
  ∀ e, e ∈ t → e ∈ allowed.

Definition count_effect (e : effect) (t : list effect) : nat :=
  length (filter (λ x, x = e) t).

(** ** Concrete tables and engines, for running the definitions *)

(** A constant table with the SIP method names and pairwise distinct
    status codes. *)
Definition sip_c : Constants :=
  {| INVITE := "INVITE"; ACK := "ACK"; OPTIONS := "OPTIONS";
     MESSAGE := "MESSAGE"; BYE := "BYE"; CANCEL := "CANCEL";
     NOTIFY := "NOTIFY";
     REASON_200 := "OK"; REASON_404 := "Not Found";
     REASON_405 := "Method Not Allowed"; REASON_410 := "Gone";
     REASON_481 := "Call/Transaction Does Not Exist";
     ALLOWED_METHODS := "INVITE, ACK, CANCEL, BYE, OPTIONS, MESSAGE";
     ACCEPTED_BODY_TYPES := "application/sdp, application/dtmf-relay";
     UA_STATUS_INIT := 0; UA_STATUS_READY := 1;
     UA_STATUS_USER_CLOSED := 2; UA_STATUS_NOT_READY := 3;
     UA_CONFIGURATION_ERROR := 1; UA_NETWORK_ERROR := 2;
     WS_SERVER_READY := 0; WS_SERVER_DISCONNECTED := 1;
     WS_SERVER_ERROR := 2 |}.

(** The members of [Object.prototype] in a browser: those of
    ECMAScript 5 and the legacy accessors. *)
Definition browser_Object_prototype (key : string) : bool :=
  bool_decide (key ∈ [ "constructor"; "toString"; "toLocaleString";
                       "valueOf"; "hasOwnProperty"; "isPrototypeOf";
                       "propertyIsEnumerable"; "__proto__";
                       "__defineGetter__"; "__defineSetter__";
                       "__lookupGetter__"; "__lookupSetter__" ]).

(** Surroundings in which no request is a retransmission. *)
Definition quiet_env : Env :=
  {| Object_prototype := browser_Object_prototype;
     Math_random := 0%Q;
     isWebRtcSupported := true;
     checkTransaction := λ _ _, false;
     normalizeUri := λ target domain, Some ("sip:" +:+ target +:+ "@" +:+ domain);
     setTimeout_handle := 1;
     Registrator_new := {| registered := false |} |}.

Definition no_transactions : Transactions :=
  {| nist := ∅; nict := ∅; ist := ∅; ict := ∅ |}.

(** The engine as the constructor leaves it, given the loaded settings. *)
Definition new_UA (c : Constants) (settings : Configuration) : UA :=
  {| configuration := settings; dialogs := ∅; registrator := None;
     applicants := ∅; sessions := ∅; transport := None;
     contact_pub_gruu := None; status := UA_STATUS_INIT c; error := None;
     transactions := no_transactions; shutdownGraceTimer := None |}.

Definition alice_settings : Configuration :=
  {| user := Some "alice"; domain := "example.com"; auto_register := true;
     outbound_proxy_set :=
       [ {| ws_uri := "ws://a.example.com/"; weight := 1; ws_status := 0 |};
         {| ws_uri := "ws://b.example.com/"; weight := 5; ws_status := 2 |};
         {| ws_uri := "ws://c.example.com/"; weight := 3; ws_status := 0 |};
         {| ws_uri := "ws://d.example.com/"; weight := 3; ws_status := 1 |} ] |}.

Definition single_settings : Configuration :=
  {| user := Some "alice"; domain := "example.com"; auto_register := true;
     outbound_proxy_set :=
       [ {| ws_uri := "ws://a.example.com/"; weight := 0; ws_status := 0 |} ] |}.

Definition alice_init : UA := new_UA sip_c alice_settings.

(** A connected engine with one session, one dialog and one applicant,
    whose registration is [reg]. *)
Definition alice_ready (reg : option Registrator) : UA :=
  {| configuration := alice_settings;
     dialogs := {[ "c1" +:+ "ta" +:+ "tb" := DialogObj 7 ]};
     registrator := reg;
     applicants := {[ "m1" := ApplicantObj 4 ]};
     sessions := {[ "c1" +:+ "ta" := SessionObj 3 ]};
     transport := Some {| transport_id := 0; server := 2%nat |};
     contact_pub_gruu := None; status := UA_STATUS_READY sip_c; error := None;
     transactions := no_transactions; shutdownGraceTimer := None |}.

Definition alice_single : UA :=
  {| configuration := single_settings;
     dialogs := ∅;
     registrator := Some {| registered := true |};
     applicants := ∅;
     sessions := {[ "c1" +:+ "ta" := SessionObj 3 ]};
     transport := Some {| transport_id := 0; server := 0%nat |};
     contact_pub_gruu := None; status := UA_STATUS_READY sip_c; error := None;
     transactions := no_transactions; shutdownGraceTimer := None |}.

Definition mk_request (m : string) (u : js_string) (cid : string)
    (ft tt : js_string) : IncomingRequest :=
  {| method := m; ruri_user := u; call_id := cid; from_tag := ft; to_tag := tt |}.


Definition first_transport : Transport := {| transport_id := 0; server := 0%nat |}.

(** The engine of [alice_settings] after its first connection and a
    [stop()]. *)
Definition alice_connected : UA :=
  final (onTransportConnected sip_c quiet_env first_transport alice_init).

Definition alice_closed : UA := final (stop sip_c quiet_env alice_connected).

(** Requests addressed to alice, and one addressed to bob. *)
Definition options_request : IncomingRequest :=
  mk_request "OPTIONS" (Some "alice") "c9" (Some "tx") None.

Definition stray_bye : IncomingRequest :=
  mk_request "BYE" (Some "alice") "c9" (Some "tx") (Some "ty").

Definition stray_ack : IncomingRequest :=
  mk_request "ACK" (Some "alice") "c9" (Some "tx") (Some "ty").

Definition invite_to_bob : IncomingRequest :=
  mk_request "INVITE" (Some "bob") "c1" (Some "ta") (Some "tb").

Definition second_transport : Transport := {| transport_id := 1; server := 2%nat |}.

(** Requests whose first key spells the name of an inherited member:
    "to" + "Str" + "ing" for the dialogs, "toStr" + "ing" for the
    sessions. *)
Definition toString_bye : IncomingRequest :=
  mk_request "BYE" (Some "alice") "to" (Some "Str") (Some "ing").

Definition toString_options : IncomingRequest :=
  mk_request "OPTIONS" (Some "alice") "to" (Some "Str") (Some "ing").

Definition toString_notify : IncomingRequest :=
  mk_request "NOTIFY" (Some "alice") "toStr" (Some "ing") (Some "x").

(** An engine that holds two dialogs of one call whose tags are crossed. *)
Definition alice_crossed : UA :=
  {| configuration := alice_settings;
     dialogs := {[ "c1" +:+ "ta" +:+ "tb" := DialogObj 7;
                   "c1" +:+ "tb" +:+ "ta" := DialogObj 8 ]};
     registrator := None;
     applicants := ∅;
     sessions := ∅;
     transport := Some {| transport_id := 0; server := 2%nat |};
     contact_pub_gruu := None; status := UA_STATUS_READY sip_c; error := None;
     transactions := no_transactions; shutdownGraceTimer := None |}.

(** * Vocabulary of the properties *)

(** ** The selector's loop *)

(** [e] is not excluded and no entry of [seen] that is not excluded
    outweighs it. *)
Definition best_in (seen : list (server_ref * WsServer))
    (e : server_ref * WsServer) : Prop :=
  ws_status e.2 ≠ 2 ∧
  ∀ e', e' ∈ seen → ws_status e'.2 ≠ 2 → weight e'.2 ≤ weight e.2.

(** What the loop maintains: [acc] holds exactly the best entries seen. *)
Definition selected (acc seen : list (server_ref * WsServer)) : Prop :=
  ∀ e, e ∈ acc ↔ e ∈ seen ∧ best_in seen e.

(** ** The dispatcher, stage by stage *)

Section Stages.

Variable c : Constants.
Variable env : Env.

(** The value of the two look-ups. *)
Definition dialog_of (ua : UA) (request : IncomingRequest)
    : option (property Dialog) :=
  match get_property env (dialogs ua)
          (call_id request +:+ to_string (from_tag request)
                           +:+ to_string (to_tag request)) with
  | Some d => Some d
  | None => get_property env (dialogs ua)
              (call_id request +:+ to_string (to_tag request)
                               +:+ to_string (from_tag request))
  end.

Definition session_of (ua : UA) (request : IncomingRequest)
    : option (property Session) :=
  match get_property env (sessions ua)
          (call_id request +:+ to_string (from_tag request)) with
  | Some a => Some a
  | None => get_property env (sessions ua)
              (call_id request +:+ to_string (to_tag request))
  end.

(** What calling [receiveRequest] on the value of a look-up does. *)
Definition session_handoff (found : option (property Session))
    (otherwise : list effect) : list effect :=
  match found with
  | Some (Own s) => [session_receiveRequest s]
  | Some (Inherited _) => []
  | None => otherwise
  end.

Definition handoff_outcome {A} (found : option (property A)) : outcome unit :=
  match found with
  | Some (Inherited _) => Throw TypeError
  | _ => Return tt
  end.

(** The capability reply to OPTIONS. *)
Definition capability_reply : effect :=
  request_reply 200 (REASON_200 c)
    [("Allow", ALLOWED_METHODS c); ("Accept", ACCEPTED_BODY_TYPES c)].

(** What each stage of [receiveRequest] calls, once the request URI
    points to the engine and the request is no retransmission. *)
Definition transaction_stage (m : string) : list effect :=
  if bool_decide (m = INVITE c) then [new_InviteServerTransaction]
  else if bool_decide (m = ACK c) then []
  else [new_NonInviteServerTransaction].

Definition options_stage (m : string) : list effect :=
  if bool_decide (m = OPTIONS c) then [capability_reply] else [].

Definition initial_stage (ua : UA) (request : IncomingRequest) : list effect :=
  let m := method request in
  match registrator ua with
  | None => [request_reply 410 (REASON_410 c) []]
  | Some r =>
      if negb (registered r) then [request_reply 410 (REASON_410 c) []]
      else if bool_decide (m = MESSAGE c) then [messageReceiver]
      else if bool_decide (m = INVITE c) then
        if isWebRtcSupported env then [new_IncomingSession] else []
      else if bool_decide (m = BYE c) then
        [request_reply 481 (REASON_481 c) []]
      else if bool_decide (m = CANCEL c) then
        session_handoff (session_of ua request) []
      else if bool_decide (m = ACK c) then []
      else [request_reply 405 (REASON_405 c) []]
  end.

Definition in_dialog_stage (ua : UA) (request : IncomingRequest) : list effect :=
  let m := method request in
  match dialog_of ua request with
  | Some (Own d) => [dialog_receiveRequest d]
  | Some (Inherited _) => []
  | None =>
      if bool_decide (m = NOTIFY c) then
        session_handoff (session_of ua request)
          [request_reply 481 "Subscription does not exist" []]
      else if bool_decide (m = ACK c) then []
      else [request_reply 481 (REASON_481 c) []]
  end.

Definition routing_stage (ua : UA) (request : IncomingRequest) : list effect :=
  if truthy (to_tag request) then in_dialog_stage ua request
  else initial_stage ua request.

(** How the routing stage ends: normally, or with the TypeError of a
    call on an inherited member. *)
Definition initial_outcome (ua : UA) (request : IncomingRequest)
    : outcome unit :=
  let m := method request in
  match registrator ua with
  | None => Return tt
  | Some r =>
      if negb (registered r) then Return tt
      else if bool_decide (m = MESSAGE c) then Return tt
      else if bool_decide (m = INVITE c) then Return tt
      else if bool_decide (m = BYE c) then Return tt
      else if bool_decide (m = CANCEL c) then
        handoff_outcome (session_of ua request)
      else Return tt
  end.

Definition in_dialog_outcome (ua : UA) (request : IncomingRequest)
    : outcome unit :=
  let m := method request in
  match dialog_of ua request with
  | Some (Own _) => Return tt
  | Some (Inherited _) => Throw TypeError
  | None =>
      if bool_decide (m = NOTIFY c) then
        handoff_outcome (session_of ua request)
      else Return tt
  end.

Definition routing_outcome (ua : UA) (request : IncomingRequest)
    : outcome unit :=
  if truthy (to_tag request) then in_dialog_outcome ua request
  else initial_outcome ua request.

End Stages.

(** ** Constant tables that tell their entries apart *)

Definition methods_distinct (c : Constants) : Prop :=
  NoDup [INVITE c; ACK c; OPTIONS c; MESSAGE c; BYE c; CANCEL c; NOTIFY c].

Definition statuses_distinct (c : Constants) : Prop :=
  NoDup [UA_STATUS_INIT c; UA_STATUS_READY c;
         UA_STATUS_USER_CLOSED c; UA_STATUS_NOT_READY c].

(** ** Runs of the engine *)

(** The entry points of UA.js. *)
Inductive entry_point (c : Constants) (env : Env) : M unit → Prop :=
| ep_networkIsReady : entry_point c env (networkIsReady c)
| ep_register : entry_point c env (register c)
| ep_deregister all : entry_point c env (deregister c all)
| ep_isRegistered : entry_point c env (bind isRegistered (λ _, ret tt))
| ep_call target : entry_point c env (call c env target)
| ep_message target body content_type :
    entry_point c env (message c env target body content_type)
| ep_stop : entry_point c env (stop c env)
| ep_start : entry_point c env (start c env)
| ep_onTransportClosed transport :
    entry_point c env (onTransportClosed c transport)
| ep_onTransportError transport :
    entry_point c env (onTransportError c env transport)
| ep_onTransportConnected transport :
    entry_point c env (onTransportConnected c env transport)
| ep_receiveRequest request :
    entry_point c env (receiveRequest c env request).

(** What the collaborators do to the engine between two entries: they
    file and remove their own objects (dialogs, sessions, applicants,
    transactions), the registrator keeps its [registered] flag and the
    contact its GRUU; they assign neither [status] nor [error]. *)
Definition collaborator_update (ua ua' : UA) : Prop :=
  configuration ua' = configuration ua ∧
  transport ua' = transport ua ∧
  status ua' = status ua ∧
  error ua' = error ua ∧
  shutdownGraceTimer ua' = shutdownGraceTimer ua.

(** The engines that can be met when entry points run one after the
    other (none is called from inside another): the constructor's, and
    those that an entry point or a collaborator leaves behind. *)
Inductive reachable (c : Constants) : UA → Prop :=
| reachable_new settings : reachable c (new_UA c settings)
| reachable_entry env m ua :
    reachable c ua → entry_point c env m → reachable c (final (m ua))
| reachable_collaborator ua ua' :
    reachable c ua → collaborator_update ua ua' → reachable c ua'.


(** ** Further vocabulary *)

(** The entries of the candidate array that the selector may still pick. *)
Definition selectable (pool : list WsServer) : list WsServer :=
  filter (λ s, ws_status s ≠ 2) pool.

(** What never changes in a candidate. *)
Definition identity_of (s : WsServer) : string * Z := (ws_uri s, weight s).

(** The server transactions created for a request. *)
Definition is_server_transaction (e : effect) : bool :=
  match e with
  | new_InviteServerTransaction | new_NonInviteServerTransaction => true
  | _ => false
  end.

(** The hand-offs of a request to a collaborator. *)
Definition is_handoff (e : effect) : bool :=
  match e with
  | messageReceiver | new_IncomingSession
  | session_receiveRequest _ | dialog_receiveRequest _ => true
  | _ => false
  end.

(** Surroundings without WebRTC, and surroundings whose transaction
    layer knows every request. *)
Definition no_webrtc_env : Env :=
  {| Object_prototype := browser_Object_prototype;
     Math_random := 0%Q;
     isWebRtcSupported := false;
     checkTransaction := λ _ _, false;
     normalizeUri := λ target domain, Some ("sip:" +:+ target +:+ "@" +:+ domain);
     setTimeout_handle := 1;
     Registrator_new := {| registered := false |} |}.

Definition busy_env : Env :=
  {| Object_prototype := browser_Object_prototype;
     Math_random := 0%Q;
     isWebRtcSupported := true;
     checkTransaction := λ _ _, true;
     normalizeUri := λ target domain, Some ("sip:" +:+ target +:+ "@" +:+ domain);
     setTimeout_handle := 1;
     Registrator_new := {| registered := false |} |}.

(** Surroundings that accept no target. *)
Definition strict_env : Env :=
  {| Object_prototype := browser_Object_prototype;
     Math_random := 0%Q;
     isWebRtcSupported := true;
     checkTransaction := λ _ _, false;
     normalizeUri := λ _ _, None;
     setTimeout_handle := 1;
     Registrator_new := {| registered := false |} |}.

Definition alice_registered : UA := alice_ready (Some {| registered := true |}).

Definition initial_request (m : string) : IncomingRequest :=
  mk_request m (Some "alice") "c5" (Some "tx") None.



Definition stray_notify : IncomingRequest :=
  mk_request "NOTIFY" (Some "alice") "c9" (Some "tx") (Some "ty").

Definition notify_of_session : IncomingRequest :=
  mk_request "NOTIFY" (Some "alice") "c1" (Some "tz") (Some "ta").

(** Settings without automatic registration. *)
Definition manual_settings : Configuration :=
  {| user := Some "alice"; domain := "example.com"; auto_register := false;
     outbound_proxy_set :=
       [ {| ws_uri := "ws://a.example.com/"; weight := 0; ws_status := 0 |} ] |}.


(** [ua'] holds the registries, the contact and the settings of [ua],
    and candidates of the same uri and weight, in the same order. *)
Definition keeps_registries (ua ua' : UA) : Prop :=
  dialogs ua' = dialogs ua ∧
  sessions ua' = sessions ua ∧
  applicants ua' = applicants ua ∧
  transactions ua' = transactions ua ∧
  contact_pub_gruu ua' = contact_pub_gruu ua ∧
  user (configuration ua') = user (configuration ua) ∧
  domain (configuration ua') = domain (configuration ua) ∧
  auto_register (configuration ua') = auto_register (configuration ua) ∧
  identity_of <$> outbound_proxy_set (configuration ua')
  = identity_of <$> outbound_proxy_set (configuration ua).

(** * The configuration loader and the constructor

    [JsSIP.UA.configuration_check], [JsSIP.UA.prototype.loadConfig] and
    the constructor [JsSIP.UA], for configurations whose parameters have
    the documented types: strings, booleans, integers, and for
    [outbound_proxy_set] a string or an array of strings and objects.
    A parameter that is not given is [None] ([undefined]).  The grammar
    [JsSIP.grammar_sip.parse], [JsSIP.utils.newUUID] and the random
    tokens come from the surroundings. *)

(** ToBoolean on a boolean-or-undefined and on a number-or-undefined. *)
Definition truthy_bool (v : option bool) : bool :=
  match v with
  | Some b => b
  | None => false
  end.

Definition truthy_num (v : option Z) : bool :=
  match v with
  | Some n => negb (n =? 0)
  | None => false
  end.

(** [Number(v)] on a number-or-undefined; [NaN] is [None]. *)
Definition js_Number (v : option Z) : option Z := v.

(** The double quote. *)
Definition dquote : string := String (Ascii.ascii_of_nat 34) EmptyString.

(** An object of [outbound_proxy_set] as the user writes it. *)
Record RawServer := {
  host : js_string;
  raw_weight : option Z;
  ws_path : js_string;
  ws_query : js_string
}.

Inductive proxy_entry :=
| PE_string (s : string)
| PE_object (o : RawServer).

Inductive proxy_set :=
| PS_string (s : string)
| PS_array (l : list proxy_entry).

(** The configuration object handed to the constructor. *)
Record UserConfiguration := {
  cfg_outbound_proxy_set : option proxy_set;
  cfg_uri : js_string;
  cfg_password : js_string;
  cfg_authorization_user : js_string;
  cfg_auto_register : option bool;
  cfg_display_name : js_string;
  cfg_via_host : js_string;
  cfg_secure_transport : option bool;
  cfg_register_expires : option Z;
  cfg_stun_server : js_string;
  cfg_no_answer_timeout : option Z;
  cfg_hack_use_via_tcp : option bool
}.

(** What the grammar returns for the rules [hostport] and [lazy_uri];
    [None] is the [-1] of a failed parse. *)
Record HostPort := {
  hp_host : js_string;
  hp_port : js_string
}.

Record ParsedUri := {
  uri_scheme : js_string;
  uri_user : js_string;
  uri_host : js_string
}.

Record Grammar := {
  parse_hostport : js_string → option HostPort;
  parse_lazy_uri : string → option ParsedUri;
  parse_password : string → bool;
  parse_quoted_string : string → bool;
  parse_display_name : string → bool;
  parse_host : string → bool;
  random_via_host : string;
  random_jssip_id : string;
  newUUID : string
}.

(** An entry of [settings.outbound_proxy_set] after the loader. *)
Record LoadedServer := {
  ls_host : js_string;
  ls_ws_path : js_string;
  ls_ws_query : js_string;
  ls_ws_uri : string;
  ls_sip_uri : string;
  ls_weight : Z;
  ls_status : Z
}.

(** The settings that the loader writes into [this.configuration]. *)
Record Settings := {
  st_via_host : string;
  st_register_expires : Z;
  st_register_min_expires : Z;
  st_auto_register : bool;
  st_secure_transport : bool;
  st_max_reconnection : Z;
  st_reconnection_timeout : Z;
  st_no_answer_timeout : Z;
  st_stun_server : string;
  st_hack_use_via_tcp : bool;
  st_outbound_proxy_set : list LoadedServer;
  st_uri : string;
  st_password : string;
  st_authorization_user : js_string;
  st_display_name : js_string;
  st_instance_id : string;
  st_jssip_id : string;
  st_user : js_string;
  st_domain : js_string;
  st_from_uri : string;
  st_via_core_value : string
}.

Section Loader.

Variable g : Grammar.

(** *** [JsSIP.UA.configuration_check] *)

(** [mandatory.outbound_proxy_set], the loop over the entries. *)
Fixpoint check_outbound_proxy_entries (l : list RawServer) : bool :=
  match l with
  | [] => true
  | entry :: l' =>
      if negb (truthy (host entry)) then false
      else if truthy_num (raw_weight entry)
              && negb (truthy_num (js_Number (raw_weight entry)))
      then false
      else
        match parse_hostport g (host entry) with
        | None => false
        | Some _ => check_outbound_proxy_entries l'
        end
  end.

Definition check_outbound_proxy_set (l : list RawServer) : bool :=
  if bool_decide (length l = 0%nat) then false
  else check_outbound_proxy_entries l.

Definition check_uri (uri : string) : bool :=
  match parse_lazy_uri g uri with
  | None => false
  | Some parsed => if negb (truthy (uri_host parsed)) then false else true
  end.

Definition check_password (password : string) : bool :=
  if negb (parse_password g password) then false else true.

Definition check_authorization_user (authorization_user : string) : bool :=
  if negb (parse_quoted_string g (dquote +:+ authorization_user +:+ dquote))
  then false else true.

Definition check_auto_register (auto_register : bool) : bool :=
  if negb (bool_decide (auto_register = true))
     && negb (bool_decide (auto_register = false))
  then false else true.

Definition check_display_name (display_name : string) : bool :=
  if negb (parse_display_name g display_name) then false else true.

Definition check_via_host (via_host : string) : bool :=
  if negb (parse_host g via_host) then false else true.

Definition check_secure_transport (secure_transport : bool) : bool :=
  if negb (bool_decide (secure_transport = true))
     && negb (bool_decide (secure_transport = false))
  then false else true.

Definition check_register_expires (register_expires : Z) : bool :=
  if negb (truthy_num (js_Number (Some register_expires))) then false
  else true.

Definition check_stun_server (stun_server : string) : bool :=
  match parse_hostport g (Some stun_server) with
  | None => false
  | Some _ => true
  end.

Definition check_no_answer_timeout (no_answer_timeout : Z) : bool :=
  if negb (truthy_num (js_Number (Some no_answer_timeout))) then false
  else if bool_decide (no_answer_timeout < 0)
          || bool_decide (600 < no_answer_timeout)
  then false
  else true.

Definition check_hack_use_via_tcp (hack_use_via_tcp : bool) : bool :=
  if negb (bool_decide (hack_use_via_tcp = true))
     && negb (bool_decide (hack_use_via_tcp = false))
  then false else true.

(** *** [JsSIP.UA.prototype.loadConfig] *)

(** Pre-configuration: a string becomes a one-entry array, and the
    strings of an array become objects. *)
Definition proxy_object_of (e : proxy_entry) : RawServer :=
  match e with
  | PE_string s =>
      {| host := Some s; raw_weight := None; ws_path := None; ws_query := None |}
  | PE_object o => o
  end.

Definition pre_configuration (p : option proxy_set) : option (list RawServer) :=
  match p with
  | Some (PS_string s) => Some [proxy_object_of (PE_string s)]
  | Some (PS_array l) => Some (proxy_object_of <$> l)
  | None => None
  end.

(** One optional parameter: skipped when falsy, checked otherwise. *)
Definition optional_string (v : js_string) (check : string → bool) : bool :=
  if truthy v then check (to_string v) else true.

Definition optional_bool (v : option bool) (check : bool → bool) : bool :=
  match v with
  | Some b => if b then check b else true
  | None => true
  end.

Definition optional_num (v : option Z) (check : Z → bool) : bool :=
  match v with
  | Some n => if truthy_num (Some n) then check n else true
  | None => true
  end.

(** The loop over the mandatory parameters: [outbound_proxy_set], [uri],
    [password], in that order. *)
Definition mandatory_ok (configuration : UserConfiguration)
    (servers : option (list RawServer)) : bool :=
  match servers with
  | None => false
  | Some l =>
      if negb (check_outbound_proxy_set l) then false
      else if negb (truthy (cfg_uri configuration)) then false
      else if negb (check_uri (to_string (cfg_uri configuration))) then false
      else if negb (truthy (cfg_password configuration)) then false
      else if negb (check_password (to_string (cfg_password configuration)))
      then false
      else true
  end.

(** The loop over the optional parameters, in the order of the checker
    table. *)
Definition optional_ok (configuration : UserConfiguration) : bool :=
  optional_string (cfg_authorization_user configuration) check_authorization_user
  && optional_bool (cfg_auto_register configuration) check_auto_register
  && optional_string (cfg_display_name configuration) check_display_name
  && optional_string (cfg_via_host configuration) check_via_host
  && optional_bool (cfg_secure_transport configuration) check_secure_transport
  && optional_num (cfg_register_expires configuration) check_register_expires
  && optional_string (cfg_stun_server configuration) check_stun_server
  && optional_num (cfg_no_answer_timeout configuration) check_no_answer_timeout
  && optional_bool (cfg_hack_use_via_tcp configuration) check_hack_use_via_tcp.

(** A parameter that passed its check replaces the default. *)
Definition string_or (v : js_string) (default : string) : string :=
  if truthy v then to_string v else default.

Definition bool_or (v : option bool) (default : bool) : bool :=
  if truthy_bool v then true else default.

Definition num_or (v : option Z) (default : Z) : Z :=
  match v with
  | Some n => if truthy_num (Some n) then n else default
  | None => default
  end.

(** The body of the loop over the transports. *)
Definition load_server (secure_transport : bool) (entry : RawServer)
    : LoadedServer :=
  let ws_server := parse_hostport g (host entry) in
  let ws_host := to_string (ws_server ≫= hp_host) in
  let ws_port := ws_server ≫= hp_port in
  let port := if truthy ws_port then ":" +:+ to_string ws_port else "" in
  {| ls_host := host entry;
     ls_ws_path := ws_path entry;
     ls_ws_query := ws_query entry;
     ls_ws_uri :=
       ((if secure_transport then "wss" else "ws") +:+ "://" +:+ ws_host +:+ port)
       +:+ (if truthy (ws_path entry) then "/" +:+ to_string (ws_path entry)
            else "/")
       +:+ (if truthy (ws_query entry) then "?" +:+ to_string (ws_query entry)
            else "");
     ls_sip_uri := "<sip:" +:+ ws_host +:+ port +:+ ";transport=ws;lr>";
     ls_weight := num_or (raw_weight entry) 0;
     ls_status := 0 |}.

(** The settings, once both loops went through. *)
Definition post_configuration (configuration : UserConfiguration)
    (servers : list RawServer) : Settings :=
  let via_host :=
    string_or (cfg_via_host configuration) (random_via_host g +:+ ".invalid") in
  let secure_transport := bool_or (cfg_secure_transport configuration) false in
  let hack_use_via_tcp := bool_or (cfg_hack_use_via_tcp configuration) false in
  let uri_text := to_string (cfg_uri configuration) in
  let uri := parse_lazy_uri g uri_text in
  let user := uri ≫= uri_user in
  let from_uri :=
    (if truthy (uri ≫= uri_scheme) then "" else "sip:") +:+ uri_text in
  {| st_via_host := via_host;
     st_register_expires := num_or (cfg_register_expires configuration) 600;
     st_register_min_expires := 120;
     st_auto_register := bool_or (cfg_auto_register configuration) true;
     st_secure_transport := secure_transport;
     st_max_reconnection := 3;
     st_reconnection_timeout := 4;
     st_no_answer_timeout :=
       num_or (cfg_no_answer_timeout configuration) 30 * 1000;
     st_stun_server :=
       string_or (cfg_stun_server configuration) "stun.l.google.com:19302";
     st_hack_use_via_tcp := hack_use_via_tcp;
     st_outbound_proxy_set := load_server secure_transport <$> servers;
     st_uri := uri_text;
     st_password := to_string (cfg_password configuration);
     st_authorization_user :=
       if truthy (cfg_authorization_user configuration)
       then cfg_authorization_user configuration
       else user;
     st_display_name :=
       if truthy (cfg_display_name configuration)
       then cfg_display_name configuration
       else None;
     st_instance_id := newUUID g;
     st_jssip_id := random_jssip_id g;
     st_user := user;
     st_domain := uri ≫= uri_host;
     st_from_uri :=
       if truthy (cfg_display_name configuration)
       then dquote +:+ to_string (cfg_display_name configuration) +:+ dquote
            +:+ " <" +:+ from_uri +:+ ">"
       else from_uri;
     st_via_core_value :=
       "SIP/2.0/"
       +:+ (if hack_use_via_tcp then "TCP"
            else if secure_transport then "WSS" else "WS")
       +:+ " " +:+ via_host |}.

(** The value of [contact.uri]. *)
Definition contact_uri (settings : Settings) : string :=
  "sip:" +:+ to_string (st_user settings) +:+ "@" +:+ st_via_host settings
  +:+ ";transport=ws".

(** [loadConfig]: [None] is the [false] of a refused configuration. *)
Definition loadConfig (configuration : UserConfiguration) : option Settings :=
  let servers := pre_configuration (cfg_outbound_proxy_set configuration) in
  if negb (mandatory_ok configuration servers) then None
  else if negb (optional_ok configuration) then None
  else Some (post_configuration configuration (default [] servers)).

End Loader.

(** The part of the settings that the engine reads. *)
Definition server_of (s : LoadedServer) : WsServer :=
  {| ws_uri := ls_ws_uri s; weight := ls_weight s; ws_status := ls_status s |}.

Definition configuration_of (settings : Settings) : Configuration :=
  {| user := st_user settings;
     domain := to_string (st_domain settings);
     auto_register := st_auto_register settings;
     outbound_proxy_set := server_of <$> st_outbound_proxy_set settings |}.

(** *** The constructor *)

(** The event names handed to [initEvents]. *)
Definition UA_events : list string :=
  ["connect"; "disconnect"; "register"; "deregister"; "registrationFailure";
   "call"; "message"].

(** The outcome of [new JsSIP.UA(configuration)]: the engine with the
    events it declared, or a ConfigurationError leaving [this] behind. *)
Inductive construction :=
| Constructed (this : UA) (events : list string)
| ConfigurationError (this : UA).

Definition UA_blank (c : Constants) : UA :=
  {| configuration :=
       {| user := None; domain := ""; auto_register := false;
          outbound_proxy_set := [] |};
     dialogs := ∅; registrator := None; applicants := ∅; sessions := ∅;
     transport := None; contact_pub_gruu := None;
     status := UA_STATUS_INIT c; error := None;
     transactions := no_transactions; shutdownGraceTimer := None |}.

(** [JsSIP.UA] *)
Definition UA_new (c : Constants) (g : Grammar)
    (configuration : option UserConfiguration) : construction :=
  match configuration ≫= loadConfig g with
  | None =>
      ConfigurationError
        (set_error (Some (UA_CONFIGURATION_ERROR c))
           (set_status (UA_STATUS_NOT_READY c) (UA_blank c)))
  | Some settings => Constructed (new_UA c (configuration_of settings)) UA_events
  end.

(** *** Concrete grammars and configurations *)

(** A grammar that accepts every text without a blank, reads a host and
    port as given, and splits no uri. *)
Definition plain_grammar : Grammar :=
  {| parse_hostport := λ h,
       match h with
       | Some s =>
           if bool_decide (s = "bad host") then None
           else Some {| hp_host := Some s; hp_port := None |}
       | None => None
       end;
     parse_lazy_uri := λ u,
       if bool_decide (u = "bad uri") then None
       else Some {| uri_scheme := None; uri_user := Some "alice";
                    uri_host := Some "example.com" |};
     parse_password := λ _, true;
     parse_quoted_string := λ _, true;
     parse_display_name := λ _, true;
     parse_host := λ _, true;
     random_via_host := "k3j9x0q2m1zz";
     random_jssip_id := "a1b2c";
     newUUID := "6ba7b810-9dad-11d1-80b4-00c04fd430c8" |}.

Definition alice_configuration (proxies : option proxy_set)
    (auto : option bool) (timeout : option Z) : UserConfiguration :=
  {| cfg_outbound_proxy_set := proxies;
     cfg_uri := Some "alice@example.com";
     cfg_password := Some "secret";
     cfg_authorization_user := None;
     cfg_auto_register := auto;
     cfg_display_name := None;
     cfg_via_host := None;
     cfg_secure_transport := None;
     cfg_register_expires := None;
     cfg_stun_server := None;
     cfg_no_answer_timeout := timeout;
     cfg_hack_use_via_tcp := None |}.

Definition two_proxies : option proxy_set :=
  Some (PS_array
          [ PE_string "a.example.com";
            PE_object {| host := Some "b.example.com"; raw_weight := Some 5;
                         ws_path := Some "ws"; ws_query := None |} ]).

Definition alice_loaded : UserConfiguration :=
  alice_configuration two_proxies (Some false) (Some 45).
(** * Properties *)

(** ** The failover selector *)

Section Selector.

Implicit Types (acc seen : list (server_ref * WsServer)).
Implicit Types (e : server_ref * WsServer).

Lemma best_in_snoc seen e x :
  best_in (seen ++ [e]) x ↔
  best_in seen x ∧ (ws_status e.2 ≠ 2 → weight e.2 ≤ weight x.2).
Proof.
  unfold best_in. split.
  - intros [Hx Hmax]. split_and!; [done | |].
    + intros e' He' Hs. apply Hmax; [| done]. apply elem_of_app. by left.
    + intros Hs. apply Hmax; [| done]. apply elem_of_app. right.
      by apply list_elem_of_singleton.
  - intros [[Hx Hmax] He]. split; [done |].
    intros e' [He' | He']%elem_of_app Hs; [by apply Hmax |].
    apply list_elem_of_singleton in He'. subst. by apply He.
Qed.

Lemma best_in_exists seen :
  Exists (λ e, ws_status e.2 ≠ 2) seen → ∃ b, b ∈ seen ∧ best_in seen b.
Proof.
  induction seen as [| a seen IH]; [by intros ?%Exists_nil |].
  intros Hex.
  destruct (decide (Exists (λ e, ws_status e.2 ≠ 2) seen)) as [Hseen | Hseen].
  - destruct (IH Hseen) as (b & Hb & Hbs & Hbmax).
    destruct (decide (ws_status a.2 ≠ 2 ∧ weight b.2 < weight a.2))
      as [[Ha Hlt] | Hno].
    + exists a. split; [by left |]. split; [done |].
      intros e' [-> | Hin]%elem_of_cons Hs; [lia |].
      specialize (Hbmax e' Hin Hs). lia.
    + exists b. split; [by right |]. split; [done |].
      intros e' [-> | Hin]%elem_of_cons Hs; [| by apply Hbmax].
      destruct (decide (weight b.2 < weight a.2)); [| lia].
      exfalso. by apply Hno.
  - apply Exists_cons in Hex as [Ha | Hex]; [| done].
    exists a. split; [by left |]. split; [done |].
    intros e' [-> | Hin]%elem_of_cons Hs; [lia |].
    exfalso. apply Hseen, Exists_exists. eauto.
Qed.

Lemma selected_nil : selected [] [].
Proof. intros e. split; [inversion 1 | intros [H _]; inversion H]. Qed.

Lemma selected_empty_all_excluded seen e' :
  selected [] seen → e' ∈ seen → ws_status e'.2 = 2.
Proof.
  intros Hacc He'.
  destruct (decide (ws_status e'.2 = 2)) as [| Hne]; [done | exfalso].
  destruct (best_in_exists seen) as (b & Hb & Hbest).
  { apply Exists_exists. eauto. }
  assert (Hin : b ∈ []) by (by apply Hacc).
  inversion Hin.
Qed.

Lemma selected_step acc seen e :
  selected acc seen → selected (getNextWsServer_step acc e) (seen ++ [e]).
Proof.
  intros Hacc x. unfold getNextWsServer_step.
  rewrite best_in_snoc, elem_of_app, list_elem_of_singleton.
  case_bool_decide as Hst.
  { rewrite (Hacc x). split.
    - intros [Hin Hbest]. split_and!; [by left | done | done].
    - intros ([Hin | ->] & Hbest & _); [done |]. by destruct Hbest. }
  destruct acc as [| first rest].
  { simpl. rewrite list_elem_of_singleton. split.
    - intros ->. split_and!; [by right | split; [done |] | lia].
      intros e' He' Hs. by rewrite (selected_empty_all_excluded seen e') in Hs.
    - intros ([Hin | ->] & [Hx _] & _); [| done].
      by rewrite (selected_empty_all_excluded seen x) in Hx. }
  assert (Hfirst : first ∈ seen ∧ best_in seen first)
    by (apply Hacc; by left).
  destruct Hfirst as (Hfin & Hfs & Hfmax).
  case_bool_decide as Hgt; [| case_bool_decide as Heq].
  - rewrite list_elem_of_singleton. split.
    + intros ->. split_and!; [by right | split; [done |] | lia].
      intros e' He' Hs. specialize (Hfmax e' He' Hs). lia.
    + intros ([Hin | ->] & [Hx Hmax] & He); [exfalso | done].
      specialize (Hfmax x Hin Hx). specialize (He Hst). lia.
  - rewrite elem_of_app, list_elem_of_singleton, (Hacc x). split.
    + intros [[Hin Hbest] | ->].
      * split_and!; [by left | done |]. intros _.
        destruct Hbest as [_ Hmax]. specialize (Hmax first Hfin Hfs). lia.
      * split_and!; [by right | split; [done |] | lia].
        intros e' He' Hs. specialize (Hfmax e' He' Hs). lia.
    + intros ([Hin | ->] & Hbest & _); [by left | by right].
  - rewrite (Hacc x). split.
    + intros [Hin Hbest]. split_and!; [by left | done |]. intros _.
      destruct Hbest as [_ Hmax]. specialize (Hmax first Hfin Hfs). lia.
    + intros ([Hin | ->] & Hbest & He); [done | exfalso].
      destruct Hbest as [_ Hmax]. specialize (Hmax first Hfin Hfs). lia.
Qed.

Lemma selected_foldl l acc seen :
  selected acc seen →
  selected (foldl getNextWsServer_step acc l) (seen ++ l).
Proof.
  revert acc seen. induction l as [| e l IH]; intros acc seen Hacc; simpl.
  - by rewrite app_nil_r.
  - replace (seen ++ e :: l) with ((seen ++ [e]) ++ l)
      by (by rewrite <- app_assoc).
    by apply IH, selected_step.
Qed.

(** The candidates are exactly the references to the entries of the
    array that are not excluded and carry the largest weight among the
    entries that are not excluded. *)
Lemma getNextWsServer_candidates_spec (pool : list WsServer) i s :
  (i, s) ∈ getNextWsServer_candidates pool ↔
  pool !! i = Some s ∧ ws_status s ≠ 2 ∧
  ∀ j s', pool !! j = Some s' → ws_status s' ≠ 2 → weight s' ≤ weight s.
Proof.
  unfold getNextWsServer_candidates.
  pose proof (selected_foldl (imap pair pool) [] [] selected_nil (i, s)) as H.
  simpl in H. rewrite H. clear H. unfold best_in. simpl.
  rewrite elem_of_lookup_imap. split.
  - intros ((j & y & [= -> ->] & Hl) & Hs & Hmax). split_and!; [done | done |].
    intros k s' Hk Hs'. apply (Hmax (k, s')); [| done].
    apply elem_of_lookup_imap. eauto.
  - intros (Hl & Hs & Hmax). split_and!; [eauto | done |].
    intros [k s'] (j & y & [= -> ->] & Hk)%elem_of_lookup_imap Hs'. simpl in *.
    by eapply Hmax.
Qed.

Lemma getNextWsServer_candidates_nil (pool : list WsServer) :
  getNextWsServer_candidates pool = [] ↔ ∀ s, s ∈ pool → ws_status s = 2.
Proof.
  split.
  - intros Hnil s (i & Hi)%list_elem_of_lookup.
    pose proof (selected_foldl (imap pair pool) [] [] selected_nil) as H.
    simpl in H. fold (getNextWsServer_candidates pool) in H. rewrite Hnil in H.
    apply (selected_empty_all_excluded _ (i, s) H).
    apply elem_of_lookup_imap. eauto.
  - intros Hall. destruct (getNextWsServer_candidates pool) as [| [i s] l] eqn:E;
      [done | exfalso].
    assert (Hin : (i, s) ∈ getNextWsServer_candidates pool)
      by (rewrite E; by left).
    apply getNextWsServer_candidates_spec in Hin as (Hl & Hs & _).
    apply Hs, Hall. apply list_elem_of_lookup. eauto.
Qed.

(** The index drawn from [Math.random()] falls inside the candidates. *)
Lemma random_index_in_range (q : Q) (n : nat) :
  (0 <= q)%Q → (q < 1)%Q → (0 < n)%nat →
  0 ≤ Qfloor (q * inject_Z (Z.of_nat n)) < Z.of_nat n.
Proof.
  intros Hq0 Hq1 Hn.
  assert (Hn' : (0 < inject_Z (Z.of_nat n))%Q).
  { replace 0%Q with (inject_Z 0) by done. rewrite <- Zlt_Qlt. lia. }
  split.
  - replace 0 with (Qfloor (inject_Z 0)) by apply Qfloor_Z.
    apply Qfloor_resp_le. simpl.
    apply Qmult_le_0_compat; [done | by apply Qlt_le_weak].
  - destruct (Z_lt_le_dec (Qfloor (q * inject_Z (Z.of_nat n))) (Z.of_nat n))
      as [| Hge]; [done | exfalso].
    apply (Qlt_irrefl (q * inject_Z (Z.of_nat n))).
    eapply Qlt_le_trans; [| eapply Qle_trans; [| apply Qfloor_le]].
    + apply Qmult_lt_r with (z := inject_Z (Z.of_nat n)) in Hq1; [| done].
      rewrite Qmult_1_l in Hq1. exact Hq1.
    + by rewrite <- Zle_Qle.
Qed.

End Selector.

(** ** Running method bodies *)

Lemma for_in_perform {A} (f : A → effect) (l : list A) (ua : UA) :
  for_in l (λ x, perform (f x)) ua = (Return tt, ua, f <$> l).
Proof.
  induction l as [| x l IH]; [done |].
  simpl. unfold bind, perform at 1. by rewrite IH.
Qed.

Lemma filter_none {A} (P : A → Prop) `{∀ x, Decision (P x)} (l : list A) :
  (∀ x, x ∈ l → ¬ P x) → filter P l = [].
Proof.
  intros Hno. destruct (filter P l) as [| y l'] eqn:E; [done | exfalso].
  assert (Hy : y ∈ filter P l) by (rewrite E; by left).
  apply list_elem_of_filter in Hy as [HP Hin]. by apply (Hno y).
Qed.

Lemma getNextWsServer_run (env : Env) (ua : UA) :
  getNextWsServer env ua =
  (result (getNextWsServer env ua), ua, []).
Proof. done. Qed.

Lemma closeSessionsOnTransportError_run (ua : UA) :
  closeSessionsOnTransportError ua =
  (Return tt, ua,
   ((λ idx, session_onTransportError idx.2) <$>
     map_to_list (sessions ua)) ++
   match registrator ua with
   | Some _ => [registrator_onTransportClosed]
   | None => []
   end).
Proof.
  unfold closeSessionsOnTransportError, bind, read.
  rewrite for_in_perform. simpl.
  by destruct (registrator ua).
Qed.

(** ** C3: the selector *)

Lemma getNextWsServer_some (env : Env) (ua : UA) (r : server_ref) :
  result (getNextWsServer env ua) = Return (Some r) →
  ∃ s, outbound_proxy_set (configuration ua) !! r = Some s ∧
       ws_status s ≠ 2 ∧
       ∀ j s', outbound_proxy_set (configuration ua) !! j = Some s' →
               ws_status s' ≠ 2 → weight s' ≤ weight s.
Proof.
  unfold getNextWsServer, bind, read, ret, result. simpl.
  case_bool_decide; [| done].
  intros [= Hr]. apply fmap_Some in Hr as ([i s] & Hl & ->).
  exists s. apply getNextWsServer_candidates_spec.
  apply list_elem_of_lookup. eauto.
Qed.

Lemma getNextWsServer_none (env : Env) (ua : UA) :
  (∀ s, s ∈ outbound_proxy_set (configuration ua) → ws_status s = 2) →
  result (getNextWsServer env ua) = Return None.
Proof.
  intros Hall. apply getNextWsServer_candidates_nil in Hall.
  unfold getNextWsServer, bind, read, ret, result. simpl.
  rewrite Hall. by case_bool_decide.
Qed.

(** C3. [getNextWsServer] leaves the engine as it found it and calls
    nothing; a server it returns is an entry of the candidate array whose
    status is not 2 (excluded) and whose weight is at least the weight of
    every entry that is not excluded; when every entry is excluded it
    returns [undefined]. *)
Theorem getNextWsServer_selects (env : Env) (ua : UA) :
  final (getNextWsServer env ua) = ua ∧
  trace (getNextWsServer env ua) = [] ∧
  (∀ r, result (getNextWsServer env ua) = Return (Some r) →
        ∃ s, outbound_proxy_set (configuration ua) !! r = Some s ∧
             ws_status s ≠ 2 ∧
             ∀ j s', outbound_proxy_set (configuration ua) !! j = Some s' →
                     ws_status s' ≠ 2 → weight s' ≤ weight s) ∧
  ((∀ s, s ∈ outbound_proxy_set (configuration ua) → ws_status s = 2) →
   result (getNextWsServer env ua) = Return None).
Proof.
  split_and!; [done | done | |].
  - apply getNextWsServer_some.
  - apply getNextWsServer_none.
Qed.

Lemma getNextWsServer_selects_witness :
  result (getNextWsServer quiet_env alice_init) = Return (Some 2%nat) ∧
  ∃ s, outbound_proxy_set alice_settings !! 2%nat = Some s ∧
       ws_status s ≠ 2 ∧
       ∀ j s', outbound_proxy_set alice_settings !! j = Some s' →
               ws_status s' ≠ 2 → weight s' ≤ weight s.
Proof.
  split; [reflexivity |].
  apply (proj1 (proj2 (proj2 (getNextWsServer_selects quiet_env alice_init)))).
  reflexivity.
Defined.

(** With a draw in [0, 1) and an entry that is not excluded, a server
    is returned. *)
Lemma getNextWsServer_returns (env : Env) (ua : UA) :
  (0 <= Math_random env)%Q → (Math_random env < 1)%Q →
  (∃ s, s ∈ outbound_proxy_set (configuration ua) ∧ ws_status s ≠ 2) →
  ∃ r, result (getNextWsServer env ua) = Return (Some r).
Proof.
  intros Hq0 Hq1 (s & Hs & Hst).
  set (cs := getNextWsServer_candidates (outbound_proxy_set (configuration ua))).
  assert (Hne : (0 < length cs)%nat).
  { destruct cs as [| x l] eqn:E; [exfalso | simpl; lia].
    by apply Hst, (proj1 (getNextWsServer_candidates_nil _) E). }
  pose proof (random_index_in_range _ _ Hq0 Hq1 Hne) as [Hlo Hhi].
  destruct (lookup_lt_is_Some_2 cs
              (Z.to_nat (Qfloor (Math_random env * inject_Z (Z.of_nat (length cs))))))
    as [[i x] Hx]; [lia |].
  exists i. unfold getNextWsServer, bind, read, ret, result.
  cbn [fst snd]. fold cs.
  rewrite bool_decide_eq_true_2 by done. by rewrite Hx.
Qed.

(** ** Engines that can be met *)

(** The sample engines are met after the first connection, once the
    collaborators have filed their objects. *)
Lemma alice_ready_reachable (reg : option Registrator) :
  reachable sip_c (alice_ready reg).
Proof.
  apply (reachable_collaborator sip_c
           (final (onTransportConnected sip_c quiet_env
                     {| transport_id := 0; server := 2%nat |} alice_init))).
  - apply (reachable_entry sip_c quiet_env
             (onTransportConnected sip_c quiet_env
                {| transport_id := 0; server := 2%nat |}));
      [apply reachable_new | apply ep_onTransportConnected].
  - by unfold collaborator_update.
Qed.

Lemma alice_crossed_reachable : reachable sip_c alice_crossed.
Proof.
  apply (reachable_collaborator sip_c
           (final (onTransportConnected sip_c quiet_env
                     {| transport_id := 0; server := 2%nat |} alice_init))).
  - apply (reachable_entry sip_c quiet_env
             (onTransportConnected sip_c quiet_env
                {| transport_id := 0; server := 2%nat |}));
      [apply reachable_new | apply ep_onTransportConnected].
  - by unfold collaborator_update.
Qed.

(** ** C4: the registry look-ups *)

Lemma get_property_Own {A} (env : Env) (obj : gmap string A) (key : string)
    (a : A) :
  obj !! key = Some a → get_property env obj key = Some (Own a).
Proof. intros H. unfold get_property. by rewrite H. Qed.

Lemma get_property_Inherited {A} (env : Env) (obj : gmap string A)
    (key : string) :
  obj !! key = None → Object_prototype env key = true →
  get_property env obj key = Some (Inherited key).
Proof. intros H Hp. unfold get_property. by rewrite H, Hp. Qed.

Lemma get_property_None {A} (env : Env) (obj : gmap string A) (key : string) :
  obj !! key = None → Object_prototype env key = false →
  get_property env obj key = None.
Proof. intros H Hp. unfold get_property. by rewrite H, Hp. Qed.

(** C4, as stated, fails.  With two dialogs filed under crossed keys,
    the request and the request with its tags swapped find different
    dialogs.  And for a request whose key spells "toString", with no
    dialog under either key, [findDialog] returns the inherited member
    of that name, not [null].  Both engines can be met. *)
Lemma findDialog_not_symmetric :
  reachable sip_c alice_crossed ∧
  reachable sip_c (alice_ready None) ∧
  findDialog quiet_env
    (mk_request "BYE" (Some "alice") "c1" (Some "ta") (Some "tb")) alice_crossed
  = (Return (Some (Own (DialogObj 7))), alice_crossed, []) ∧
  findDialog quiet_env
    (mk_request "BYE" (Some "alice") "c1" (Some "tb") (Some "ta")) alice_crossed
  = (Return (Some (Own (DialogObj 8))), alice_crossed, []) ∧
  dialogs (alice_ready None) !! ("to" +:+ "Str" +:+ "ing") = None ∧
  dialogs (alice_ready None) !! ("to" +:+ "ing" +:+ "Str") = None ∧
  findDialog quiet_env toString_bye (alice_ready None)
  = (Return (Some (Inherited "toString")), alice_ready None, []).
Proof.
  split_and!; try reflexivity.
  - exact alice_crossed_reachable.
  - apply alice_ready_reachable.
Qed.

(** C4, amended. For a request with call-id [C], from-tag [A] and
    to-tag [B], [findDialog] returns the dialog filed under [C+A+B] if
    there is one; else, when [C+A+B] names no inherited member, the
    dialog filed under [C+B+A] if there is one; else, when [C+B+A]
    names no inherited member either, [null]; it changes nothing.  The
    request with the two tags swapped finds nothing exactly when this
    one finds nothing, and both get the same result when neither key
    names an inherited member and the two keys do not hold different
    dialogs. *)
Theorem findDialog_either_order (env : Env) (ua : UA) (m : string)
    (u : js_string) (C A B : string) :
  (∀ d, dialogs ua !! (C +:+ A +:+ B) = Some d →
        findDialog env (mk_request m u C (Some A) (Some B)) ua
        = (Return (Some (Own d)), ua, [])) ∧
  (∀ d, dialogs ua !! (C +:+ A +:+ B) = None →
        Object_prototype env (C +:+ A +:+ B) = false →
        dialogs ua !! (C +:+ B +:+ A) = Some d →
        findDialog env (mk_request m u C (Some A) (Some B)) ua
        = (Return (Some (Own d)), ua, [])) ∧
  (dialogs ua !! (C +:+ A +:+ B) = None →
   Object_prototype env (C +:+ A +:+ B) = false →
   dialogs ua !! (C +:+ B +:+ A) = None →
   Object_prototype env (C +:+ B +:+ A) = false →
   findDialog env (mk_request m u C (Some A) (Some B)) ua
   = (Return None, ua, [])) ∧
  (result (findDialog env (mk_request m u C (Some A) (Some B)) ua)
   = Return None ↔
   result (findDialog env (mk_request m u C (Some B) (Some A)) ua)
   = Return None) ∧
  (Object_prototype env (C +:+ A +:+ B) = false →
   Object_prototype env (C +:+ B +:+ A) = false →
   (∀ d d', dialogs ua !! (C +:+ A +:+ B) = Some d →
            dialogs ua !! (C +:+ B +:+ A) = Some d' → d = d') →
   findDialog env (mk_request m u C (Some A) (Some B)) ua
   = findDialog env (mk_request m u C (Some B) (Some A)) ua).
Proof.
  unfold findDialog, get_property, bind, read, ret, result. simpl.
  destruct (dialogs ua !! (C +:+ A +:+ B)) as [d1 |] eqn:E1;
    destruct (dialogs ua !! (C +:+ B +:+ A)) as [d2 |] eqn:E2;
    destruct (Object_prototype env (C +:+ A +:+ B)) eqn:P1;
    destruct (Object_prototype env (C +:+ B +:+ A)) eqn:P2; simpl;
    split_and!; try done; try (by intros ? [= ->]);
    try (by intros ? ? ? [= ->]).
  all: intros _ _ Huniq; by rewrite (Huniq d1 d2).
Qed.

Lemma findDialog_either_order_witness :
  findDialog quiet_env
    (mk_request "BYE" (Some "alice") "c1" (Some "tb") (Some "ta"))
    (alice_ready None)
  = (Return (Some (Own (DialogObj 7))), alice_ready None, []).
Proof.
  apply (proj1 (proj2 (findDialog_either_order quiet_env (alice_ready None)
                         "BYE" (Some "alice") "c1" "tb" "ta"))).
  - reflexivity.
  - reflexivity.
  - reflexivity.
Defined.

Lemma bind_run {A B} (m : M A) (k : A → M B) ua a ua1 t1 r ua2 t2 :
  m ua = (Return a, ua1, t1) → k a ua1 = (r, ua2, t2) →
  bind m k ua = (r, ua2, t1 ++ t2).
Proof. intros Hm Hk. unfold bind. by rewrite Hm, Hk. Qed.

Section Dispatcher.

Variable c : Constants.
Variable env : Env.

Lemma findDialog_value (ua : UA) (request : IncomingRequest) :
  findDialog env request ua = (Return (dialog_of env ua request), ua, []).
Proof.
  unfold findDialog, dialog_of, bind, read, ret. simpl.
  destruct (get_property env (dialogs ua) _); [done |].
  by destruct (get_property env (dialogs ua) _).
Qed.

Lemma findSession_value (ua : UA) (request : IncomingRequest) :
  findSession env request ua = (Return (session_of env ua request), ua, []).
Proof.
  unfold findSession, session_of, bind, read, ret. simpl.
  destruct (get_property env (sessions ua) _); [done |].
  by destruct (get_property env (sessions ua) _).
Qed.

Lemma session_handoff_run (ua : UA) (request : IncomingRequest)
    (otherwise : effect) :
  bind (findSession env request) (λ session,
    match session with
    | Some (Own s) => perform (session_receiveRequest s)
    | Some (Inherited _) => throw TypeError
    | None => perform otherwise
    end) ua
  = (handoff_outcome (session_of env ua request), ua,
     session_handoff (session_of env ua request) [otherwise]).
Proof.
  unfold bind. rewrite findSession_value.
  by destruct (session_of env ua request) as [[s | name] |].
Qed.

Lemma initial_stage_run (ua : UA) (request : IncomingRequest) :
  bind (read registrator) (λ registrator,
    if match registrator with
       | None => true
       | Some r => negb (registered r)
       end
    then perform (request_reply 410 (REASON_410 c) [])
    else if bool_decide (method request = MESSAGE c) then
      perform messageReceiver
    else if bool_decide (method request = INVITE c) then
      if negb (isWebRtcSupported env) then ret tt
      else perform new_IncomingSession
    else if bool_decide (method request = BYE c) then
      perform (request_reply 481 (REASON_481 c) [])
    else if bool_decide (method request = CANCEL c) then
      bind (findSession env request) (λ session,
        match session with
        | Some (Own s) => perform (session_receiveRequest s)
        | Some (Inherited _) => throw TypeError
        | None => ret tt
        end)
    else if bool_decide (method request = ACK c) then ret tt
    else perform (request_reply 405 (REASON_405 c) [])) ua
  = (initial_outcome c env ua request, ua, initial_stage c env ua request).
Proof.
  unfold initial_stage, initial_outcome, bind at 1, read. simpl.
  destruct (registrator ua) as [r |]; [| done].
  destruct (negb (registered r)); [done |].
  case_bool_decide; [done |].
  case_bool_decide; [by destruct (isWebRtcSupported env) |].
  case_bool_decide; [done |].
  case_bool_decide.
  - unfold bind. rewrite findSession_value.
    by destruct (session_of env ua request) as [[s | name] |].
  - by case_bool_decide.
Qed.

Lemma in_dialog_stage_run (ua : UA) (request : IncomingRequest) :
  bind (findDialog env request) (λ dialog,
    match dialog with
    | Some (Own d) => perform (dialog_receiveRequest d)
    | Some (Inherited _) => throw TypeError
    | None =>
        if bool_decide (method request = NOTIFY c) then
          bind (findSession env request) (λ session,
            match session with
            | Some (Own s) => perform (session_receiveRequest s)
            | Some (Inherited _) => throw TypeError
            | None =>
                perform (request_reply 481 "Subscription does not exist" [])
            end)
        else if negb (bool_decide (method request = ACK c)) then
          perform (request_reply 481 (REASON_481 c) [])
        else ret tt
    end) ua
  = (in_dialog_outcome c env ua request, ua, in_dialog_stage c env ua request).
Proof.
  unfold in_dialog_stage, in_dialog_outcome, bind at 1.
  rewrite findDialog_value.
  destruct (dialog_of env ua request) as [[d | name] |]; [done | done |].
  case_bool_decide.
  - by rewrite session_handoff_run.
  - by case_bool_decide.
Qed.

(** A request whose URI points to the engine and that the transaction
    layer does not know runs the four stages in order; the dispatcher
    assigns nothing, and only the routing stage can raise. *)
Lemma receiveRequest_run (ua : UA) (request : IncomingRequest) :
  ruri_user request = user (configuration ua) →
  checkTransaction env ua request = false →
  receiveRequest c env request ua =
  (routing_outcome c env ua request, ua,
   Transactions_checkTransaction ::
   transaction_stage c (method request) ++ options_stage c (method request) ++
   routing_stage c env ua request).
Proof.
  intros Huser Hcheck. unfold receiveRequest.
  unfold bind at 1, read at 1. cbn [fst snd].
  rewrite bool_decide_eq_true_2 by done. cbn [negb].
  unfold bind at 1, read at 1. cbn [fst snd].
  unfold bind at 1, perform at 1. cbn [fst snd id].
  rewrite Hcheck.
  assert (Htx :
    (if bool_decide (method request = INVITE c)
     then perform new_InviteServerTransaction
     else if negb (bool_decide (method request = ACK c))
          then perform new_NonInviteServerTransaction else ret tt) ua
    = (Return tt, ua, transaction_stage c (method request))).
  { unfold transaction_stage. repeat case_bool_decide; done. }
  assert (Hopt :
    (if bool_decide (method request = OPTIONS c)
     then perform (capability_reply c) else ret tt) ua
    = (Return tt, ua, options_stage c (method request))).
  { unfold options_stage.
    by destruct (bool_decide (method request = OPTIONS c)). }
  erewrite (bind_run _ _ ua tt ua _ (routing_outcome c env ua request) ua
              (options_stage c (method request) ++ routing_stage c env ua request));
    [done | exact Htx |].
  erewrite (bind_run _ _ ua tt ua _ (routing_outcome c env ua request) ua
              (routing_stage c env ua request));
    [done | exact Hopt |].
  unfold routing_stage, routing_outcome.
  destruct (truthy (to_tag request)); cbn [negb].
  - apply in_dialog_stage_run.
  - apply initial_stage_run.
Qed.

Lemma receiveRequest_retransmission (ua : UA) (request : IncomingRequest) :
  ruri_user request = user (configuration ua) →
  checkTransaction env ua request = true →
  receiveRequest c env request ua =
  (Return tt, ua, [Transactions_checkTransaction]).
Proof.
  intros Huser Hcheck. unfold receiveRequest.
  unfold bind, read, perform. cbn [fst snd id].
  rewrite bool_decide_eq_true_2 by done. cbn [negb].
  by rewrite Hcheck.
Qed.

Lemma receiveRequest_not_for_us (ua : UA) (request : IncomingRequest) :
  ruri_user request ≠ user (configuration ua) →
  receiveRequest c env request ua =
  (Return tt, ua, [request_reply_sl 404 (REASON_404 c)]).
Proof.
  intros Huser. unfold receiveRequest, bind, read. cbn [fst snd].
  by rewrite bool_decide_eq_false_2 by done.
Qed.

End Dispatcher.

(** ** Replies of the stages *)

Lemma methods_distinct_ne (c : Constants) :
  methods_distinct c →
  OPTIONS c ≠ INVITE c ∧ OPTIONS c ≠ ACK c ∧ OPTIONS c ≠ MESSAGE c ∧
  OPTIONS c ≠ BYE c ∧ OPTIONS c ≠ CANCEL c ∧ OPTIONS c ≠ NOTIFY c ∧
  ACK c ≠ INVITE c ∧ ACK c ≠ NOTIFY c.
Proof.
  unfold methods_distinct. rewrite !NoDup_cons, !not_elem_of_cons.
  intuition congruence.
Qed.

Lemma sip_c_methods_distinct : methods_distinct sip_c.
Proof.
  unfold methods_distinct. apply (bool_decide_unpack _). by vm_compute.
Qed.

Lemma sip_c_statuses_distinct : statuses_distinct sip_c.
Proof.
  unfold statuses_distinct. apply (bool_decide_unpack _). by vm_compute.
Qed.

Lemma replies_app (t1 t2 : list effect) :
  replies (t1 ++ t2) = replies t1 ++ replies t2.
Proof. apply filter_app. Qed.

Lemma replies_with_app (code : Z) (t1 t2 : list effect) :
  replies_with code (t1 ++ t2) = replies_with code t1 ++ replies_with code t2.
Proof. apply filter_app. Qed.

Section StageReplies.

Variable c : Constants.
Variable env : Env.

Lemma transaction_stage_replies (m : string) :
  replies (transaction_stage c m) = [].
Proof. unfold transaction_stage. by repeat case_bool_decide. Qed.

Lemma options_stage_replies (m : string) :
  replies (options_stage c m) =
  if bool_decide (m = OPTIONS c) then [capability_reply c] else [].
Proof. unfold options_stage. by case_bool_decide. Qed.

Lemma routing_stage_replies_bound (ua : UA) (request : IncomingRequest) :
  (length (replies (routing_stage c env ua request)) ≤ 1)%nat.
Proof.
  unfold routing_stage, in_dialog_stage, initial_stage, session_handoff.
  repeat first [ case_bool_decide | case_match ]; simpl; lia.
Qed.

Lemma routing_stage_no_200 (ua : UA) (request : IncomingRequest) :
  replies_with 200 (routing_stage c env ua request) = [].
Proof.
  unfold routing_stage, in_dialog_stage, initial_stage, session_handoff.
  by repeat first [ case_bool_decide | case_match ].
Qed.

Lemma routing_outcome_cases (ua : UA) (request : IncomingRequest) :
  routing_outcome c env ua request = Return tt ∨
  routing_outcome c env ua request = Throw TypeError.
Proof.
  unfold routing_outcome, in_dialog_outcome, initial_outcome, handoff_outcome.
  repeat first [ case_bool_decide | case_match ]; auto.
Qed.

(** Whatever the request, the dispatcher leaves the engine as it was
    and raises nothing but a TypeError; it replies at most twice, and
    at most once to a request that is not OPTIONS. *)
Lemma receiveRequest_replies_bound (ua : UA) (request : IncomingRequest) :
  (result (receiveRequest c env request ua) = Return tt ∨
   result (receiveRequest c env request ua) = Throw TypeError) ∧
  final (receiveRequest c env request ua) = ua ∧
  (length (replies (trace (receiveRequest c env request ua))) ≤ 2)%nat ∧
  (method request ≠ OPTIONS c →
   (length (replies (trace (receiveRequest c env request ua))) ≤ 1)%nat).
Proof.
  destruct (decide (ruri_user request = user (configuration ua))) as [Hu | Hu].
  - destruct (checkTransaction env ua request) eqn:Hcheck.
    + rewrite receiveRequest_retransmission by done.
      split_and!; [by left | done | simpl; lia | simpl; lia].
    + rewrite receiveRequest_run by done.
      unfold result, final, trace. cbn [fst snd].
      change (Transactions_checkTransaction :: ?t)
        with ([Transactions_checkTransaction] ++ t).
      rewrite !replies_app, transaction_stage_replies, options_stage_replies.
      pose proof (routing_stage_replies_bound ua request) as Hr.
      split_and!; [apply routing_outcome_cases | done | |].
      * case_bool_decide; simpl in *; lia.
      * intros Hm. rewrite bool_decide_eq_false_2 by done. simpl in *. lia.
  - rewrite receiveRequest_not_for_us by done.
    split_and!; [by left | done | simpl; lia | simpl; lia].
Qed.

End StageReplies.

(** ** C1, C2, C5, C6: the request dispatcher *)

(** C1. An OPTIONS request addressed to the engine and not known to
    the transaction layer gets the capability reply and then falls
    through to the routing fork: unless a dialog takes the request
    over, the dispatcher sends a second reply (410, 405 or 481) within
    the same invocation. *)
Theorem receiveRequest_OPTIONS_replies_twice (c : Constants) (env : Env)
    (ua : UA) (request : IncomingRequest) :
  methods_distinct c →
  method request = OPTIONS c →
  ruri_user request = user (configuration ua) →
  checkTransaction env ua request = false →
  truthy (to_tag request) = false ∨
  result (findDialog env request ua) = Return None →
  ∃ code reason,
    code ≠ 200 ∧
    replies (trace (receiveRequest c env request ua))
    = [ request_reply 200 (REASON_200 c)
          [("Allow", ALLOWED_METHODS c); ("Accept", ACCEPTED_BODY_TYPES c)];
        request_reply code reason [] ].
Proof.
  intros Hd Hm Hu Hcheck Hroute.
  apply methods_distinct_ne in Hd
    as (Hoi & Hoa & Hom & Hob & Hoc & Hon & _).
  rewrite findDialog_value in Hroute.
  rewrite receiveRequest_run by done.
  unfold trace. cbn [fst snd].
  change (Transactions_checkTransaction :: ?t)
    with ([Transactions_checkTransaction] ++ t).
  rewrite !replies_app, transaction_stage_replies, options_stage_replies.
  rewrite bool_decide_eq_true_2 by done.
  unfold routing_stage, in_dialog_stage, initial_stage. rewrite Hm.
  rewrite !(bool_decide_eq_false_2 (OPTIONS c = _)) by done.
  destruct (truthy (to_tag request)).
  - destruct Hroute as [Htag | Hnone]; [discriminate |].
    unfold result in Hnone. cbn [fst snd] in Hnone.
    injection Hnone as ->.
    by exists 481, (REASON_481 c).
  - destruct (registrator ua) as [[[]] |]; cbn [registered negb].
    + by exists 405, (REASON_405 c).
    + by exists 410, (REASON_410 c).
    + by exists 410, (REASON_410 c).
Qed.

Lemma receiveRequest_OPTIONS_replies_twice_witness :
  ∃ code reason,
    code ≠ 200 ∧
    replies (trace (receiveRequest sip_c quiet_env options_request
                      (alice_ready None)))
    = [ request_reply 200 "OK"
          [("Allow", "INVITE, ACK, CANCEL, BYE, OPTIONS, MESSAGE");
           ("Accept", "application/sdp, application/dtmf-relay")];
        request_reply code reason [] ].
Proof.
  apply (receiveRequest_OPTIONS_replies_twice sip_c quiet_env
           (alice_ready None) options_request).
  - exact sip_c_methods_distinct.
  - reflexivity.
  - reflexivity.
  - reflexivity.
  - left. reflexivity.
Defined.

(** On that request the second reply is a 410. *)
Example receiveRequest_OPTIONS_then_410 :
  trace (receiveRequest sip_c quiet_env options_request (alice_ready None))
  = [ Transactions_checkTransaction; new_NonInviteServerTransaction;
      request_reply 200 "OK"
        [("Allow", "INVITE, ACK, CANCEL, BYE, OPTIONS, MESSAGE");
         ("Accept", "application/sdp, application/dtmf-relay")];
      request_reply 410 "Gone" [] ].
Proof. reflexivity. Qed.

(** C2, as stated, fails: on this OPTIONS request the dispatcher also
    creates a server transaction and sends a 410. *)
Lemma receiveRequest_OPTIONS_other_effects :
  method options_request = OPTIONS sip_c ∧
  ruri_user options_request = user (configuration (alice_ready None)) ∧
  checkTransaction quiet_env (alice_ready None) options_request = false ∧
  ¬ no_effect_but [Transactions_checkTransaction; capability_reply sip_c]
      (trace (receiveRequest sip_c quiet_env options_request
                (alice_ready None))).
Proof.
  split_and!; [done | done | done |].
  intros Hno. specialize (Hno new_NonInviteServerTransaction).
  assert (Hin : new_NonInviteServerTransaction ∈
                [Transactions_checkTransaction; capability_reply sip_c]).
  { apply Hno. right. left. }
  apply elem_of_cons in Hin as [Hin | Hin]; [discriminate |].
  apply elem_of_cons in Hin as [Hin | Hin]; [discriminate | inversion Hin].
Qed.

(** C2, amended. For an OPTIONS request addressed to the engine and not
    known to the transaction layer, the dispatcher creates a non-INVITE
    server transaction and then sends the 200 reply with the Allow and
    Accept headers, whatever the tags and the registries; no other
    reply with status 200 is sent and the engine is left as it was.
    What the routing fork does after the 200 is left open; it can end
    in no error but a TypeError. *)
Theorem receiveRequest_OPTIONS_capability_reply (c : Constants) (env : Env)
    (ua : UA) (request : IncomingRequest) :
  methods_distinct c →
  method request = OPTIONS c →
  ruri_user request = user (configuration ua) →
  checkTransaction env ua request = false →
  (∃ outcome rest,
     receiveRequest c env request ua =
     (outcome, ua,
      [ Transactions_checkTransaction; new_NonInviteServerTransaction;
        request_reply 200 (REASON_200 c)
          [("Allow", ALLOWED_METHODS c); ("Accept", ACCEPTED_BODY_TYPES c)] ]
      ++ rest) ∧
     (outcome = Return tt ∨ outcome = Throw TypeError)) ∧
  replies_with 200 (trace (receiveRequest c env request ua))
  = [ request_reply 200 (REASON_200 c)
        [("Allow", ALLOWED_METHODS c); ("Accept", ACCEPTED_BODY_TYPES c)] ].
Proof.
  intros Hd Hm Hu Hcheck.
  apply methods_distinct_ne in Hd as (Hoi & Hoa & _).
  rewrite receiveRequest_run by done.
  unfold transaction_stage, options_stage. rewrite Hm.
  rewrite !(bool_decide_eq_false_2 (OPTIONS c = _)) by done.
  rewrite bool_decide_eq_true_2 by done.
  split.
  - eexists _, _. split; [done | apply routing_outcome_cases].
  - unfold trace. cbn [fst snd app].
    change (?a :: ?b :: ?d :: ?t) with ([a; b; d] ++ t).
    rewrite replies_with_app, routing_stage_no_200. reflexivity.
Qed.

Lemma receiveRequest_OPTIONS_capability_reply_witness :
  (∃ outcome rest,
     receiveRequest sip_c quiet_env toString_options (alice_ready None) =
     (outcome, alice_ready None,
      [ Transactions_checkTransaction; new_NonInviteServerTransaction;
        request_reply 200 "OK"
          [("Allow", "INVITE, ACK, CANCEL, BYE, OPTIONS, MESSAGE");
           ("Accept", "application/sdp, application/dtmf-relay")] ]
      ++ rest) ∧
     (outcome = Return tt ∨ outcome = Throw TypeError)) ∧
  replies_with 200
    (trace (receiveRequest sip_c quiet_env toString_options (alice_ready None)))
  = [ request_reply 200 "OK"
        [("Allow", "INVITE, ACK, CANCEL, BYE, OPTIONS, MESSAGE");
         ("Accept", "application/sdp, application/dtmf-relay")] ].
Proof.
  apply (receiveRequest_OPTIONS_capability_reply sip_c quiet_env
           (alice_ready None) toString_options).
  - exact sip_c_methods_distinct.
  - reflexivity.
  - reflexivity.
  - reflexivity.
Defined.

(** C5. A request whose target user is not the configured user gets one
    stateless 404 and nothing else: the transaction layer is not
    called, no transaction is created, the engine is left as it was,
    and the outcome is the same whatever the registries hold. *)
Theorem receiveRequest_wrong_user (c : Constants) (env : Env)
    (ua : UA) (request : IncomingRequest) :
  ruri_user request ≠ user (configuration ua) →
  receiveRequest c env request ua
  = (Return tt, ua, [request_reply_sl 404 (REASON_404 c)]) ∧
  ∀ ua', user (configuration ua') = user (configuration ua) →
         trace (receiveRequest c env request ua')
         = trace (receiveRequest c env request ua).
Proof.
  intros Hu. split; [by apply receiveRequest_not_for_us |].
  intros ua' Hcfg. rewrite !receiveRequest_not_for_us; [done | done |].
  by rewrite Hcfg.
Qed.

Lemma receiveRequest_wrong_user_witness :
  receiveRequest sip_c quiet_env invite_to_bob (alice_ready None)
  = (Return tt, alice_ready None, [request_reply_sl 404 "Not Found"]) ∧
  ∀ ua', user (configuration ua') = Some "alice" →
         trace (receiveRequest sip_c quiet_env invite_to_bob ua')
         = trace (receiveRequest sip_c quiet_env invite_to_bob
                    (alice_ready None)).
Proof.
  apply (receiveRequest_wrong_user sip_c quiet_env (alice_ready None)
           invite_to_bob).
  discriminate.
Defined.

(** A request with a to-tag, addressed to the engine and not known to
    the transaction layer, for which [findDialog] returns [null]: if
    its method is neither NOTIFY nor ACK, one 481 reply is sent (and it
    is the only reply unless the method is OPTIONS) and the dispatcher
    returns; if its method is ACK, nothing is sent and nothing else is
    called. *)
Lemma receiveRequest_no_dialog (c : Constants) (env : Env)
    (ua : UA) (request : IncomingRequest) :
  methods_distinct c →
  ruri_user request = user (configuration ua) →
  checkTransaction env ua request = false →
  truthy (to_tag request) = true →
  result (findDialog env request ua) = Return None →
  (method request ≠ NOTIFY c → method request ≠ ACK c →
   result (receiveRequest c env request ua) = Return tt ∧
   replies_with 481 (trace (receiveRequest c env request ua))
   = [request_reply 481 (REASON_481 c) []] ∧
   (method request ≠ OPTIONS c →
    replies (trace (receiveRequest c env request ua))
    = [request_reply 481 (REASON_481 c) []])) ∧
  (method request = ACK c →
   replies (trace (receiveRequest c env request ua)) = [] ∧
   receiveRequest c env request ua
   = (Return tt, ua, [Transactions_checkTransaction])).
Proof.
  intros Hd Hu Hcheck Htag Hfind.
  apply methods_distinct_ne in Hd as (_ & Hoa & _ & _ & _ & _ & Hai & Han).
  rewrite findDialog_value in Hfind. injection Hfind as Hfind.
  rewrite receiveRequest_run by done.
  unfold result, trace, routing_outcome, in_dialog_outcome, routing_stage,
    in_dialog_stage. cbn [fst snd].
  rewrite Htag, Hfind.
  split.
  - intros Hn Ha.
    rewrite !(bool_decide_eq_false_2 (method request = NOTIFY c)) by done.
    rewrite (bool_decide_eq_false_2 (method request = ACK c)) by done.
    change (Transactions_checkTransaction :: ?t)
      with ([Transactions_checkTransaction] ++ t).
    split_and!; [done | |].
    + rewrite !replies_with_app.
      unfold transaction_stage, options_stage.
      by repeat case_bool_decide.
    + intros Ho. rewrite !replies_app, transaction_stage_replies,
        options_stage_replies.
      by rewrite bool_decide_eq_false_2 by done.
  - intros Ha. unfold transaction_stage, options_stage. rewrite Ha.
    rewrite (bool_decide_eq_false_2 (ACK c = INVITE c)) by done.
    rewrite !(bool_decide_eq_false_2 (ACK c = NOTIFY c)) by done.
    rewrite (bool_decide_eq_false_2 (ACK c = OPTIONS c)) by done.
    by rewrite bool_decide_eq_true_2 by done.
Qed.

(** C6. The claim fails on the code for a request whose dialog key
    names an inherited member.  A request with a to-tag, addressed to
    the engine and not known to the transaction layer, for which no
    dialog is filed under either key, but whose first key, or whose
    second key when the first names nothing, is the name of a member
    of [Object.prototype]: [findDialog] returns that member, the call
    of its [receiveRequest] raises a TypeError, and no 481 is sent; a
    request that is not OPTIONS gets no reply at all. *)
Theorem receiveRequest_no_dialog_TypeError (c : Constants) (env : Env)
    (ua : UA) (request : IncomingRequest) :
  ruri_user request = user (configuration ua) →
  checkTransaction env ua request = false →
  truthy (to_tag request) = true →
  dialogs ua !! (call_id request +:+ to_string (from_tag request)
                                 +:+ to_string (to_tag request)) = None →
  dialogs ua !! (call_id request +:+ to_string (to_tag request)
                                 +:+ to_string (from_tag request)) = None →
  Object_prototype env (call_id request +:+ to_string (from_tag request)
                                        +:+ to_string (to_tag request)) = true ∨
  Object_prototype env (call_id request +:+ to_string (to_tag request)
                                        +:+ to_string (from_tag request)) = true →
  (∃ name, result (findDialog env request ua) = Return (Some (Inherited name))) ∧
  result (receiveRequest c env request ua) = Throw TypeError ∧
  final (receiveRequest c env request ua) = ua ∧
  replies_with 481 (trace (receiveRequest c env request ua)) = [] ∧
  (method request ≠ OPTIONS c →
   replies (trace (receiveRequest c env request ua)) = []).
Proof.
  intros Hu Hcheck Htag Hk1 Hk2 Hproto.
  assert (Hfind : ∃ name, dialog_of env ua request = Some (Inherited name)).
  { unfold dialog_of, get_property. rewrite Hk1, Hk2.
    destruct (Object_prototype env (call_id request +:+ _ +:+ to_string (to_tag request)));
      [by eexists |].
    destruct Hproto as [Hp | Hp]; [discriminate |]. rewrite Hp. by eexists. }
  destruct Hfind as [name Hfind].
  rewrite findDialog_value, receiveRequest_run by done.
  unfold result, final, trace, routing_outcome, in_dialog_outcome,
    routing_stage, in_dialog_stage. cbn [fst snd].
  rewrite Htag, Hfind.
  change (Transactions_checkTransaction :: ?t)
    with ([Transactions_checkTransaction] ++ t).
  split_and!; [by exists name | done | done | |].
  - rewrite !replies_with_app.
    unfold transaction_stage, options_stage.
    by repeat case_bool_decide.
  - intros Ho. rewrite !replies_app, transaction_stage_replies,
      options_stage_replies.
    by rewrite bool_decide_eq_false_2 by done.
Qed.

Lemma receiveRequest_no_dialog_TypeError_witness :
  reachable sip_c (alice_ready None) ∧
  receiveRequest sip_c quiet_env toString_bye (alice_ready None)
  = (Throw TypeError, alice_ready None,
     [Transactions_checkTransaction; new_NonInviteServerTransaction]) ∧
  (∃ name, result (findDialog quiet_env toString_bye (alice_ready None))
           = Return (Some (Inherited name))) ∧
  replies (trace (receiveRequest sip_c quiet_env toString_bye (alice_ready None)))
  = [].
Proof.
  split; [apply alice_ready_reachable |].
  split; [reflexivity |].
  destruct (receiveRequest_no_dialog_TypeError sip_c quiet_env
              (alice_ready None) toString_bye)
    as (Hfind & _ & _ & _ & Hreplies); try reflexivity.
  - left. reflexivity.
  - split; [exact Hfind | apply Hreplies; discriminate].
Defined.

(** ** C9, C10: the public operations and the engine state *)

Section PublicOperations.

Variable c : Constants.
Variable env : Env.

(** [stop()] on a READY engine: the shutdown, in order. *)
Lemma stop_ready (ua : UA) :
  status ua = UA_STATUS_READY c →
  stop c env ua =
  (Return tt,
   set_shutdownGraceTimer (setTimeout_handle env)
     (set_status (UA_STATUS_USER_CLOSED c) ua),
   match registrator ua with
   | Some _ => [registrator_close]
   | None => []
   end ++
   ((λ session, session_terminate session.2) <$>
     map_to_list (sessions ua)) ++
   ((λ applicant, applicant_close applicant.2) <$>
     map_to_list (applicants ua)) ++
   [window_setTimeout cb_transport_disconnect "5000"]).
Proof.
  intros Hst. unfold stop.
  unfold bind at 1, read at 1. cbn [fst snd].
  rewrite bool_decide_eq_true_2 by done. cbn [negb].
  unfold bind at 1, read at 1. cbn [fst snd].
  unfold bind at 1.
  replace (match registrator ua with
           | Some _ => perform registrator_close
           | None => ret tt
           end ua)
    with (Return tt, ua,
          match registrator ua with
          | Some _ => [registrator_close]
          | None => []
          end) by (by destruct (registrator ua)).
  unfold bind at 1, read at 1. cbn [fst snd].
  unfold bind at 1. rewrite for_in_perform.
  unfold bind at 1, read at 1. cbn [fst snd].
  unfold bind at 1. rewrite for_in_perform.
  unfold bind, assign, perform. cbn [fst snd].
  by rewrite !app_nil_r, !app_nil_l.
Qed.

(** C10. [stop()] on an engine that is not READY raises NotReadyError
    before anything else: nothing is called (the registrator is not
    closed, no session is terminated, no applicant is closed, no timer
    is set) and the engine, its status included, is left as it was. *)
Theorem stop_not_ready (ua : UA) :
  status ua ≠ UA_STATUS_READY c →
  stop c env ua = (Throw NotReadyError, ua, []).
Proof.
  intros Hst. unfold stop, bind, read. cbn [fst snd].
  by rewrite bool_decide_eq_false_2 by done.
Qed.

(** C9. On an engine that is not READY, register, deregister, call and
    message each raise NotReadyError, call nothing and leave the engine
    as it was; on a READY engine none of them raises NotReadyError. *)
Theorem public_operations_need_READY (ua : UA) (all : bool)
    (target body : string) (content_type : js_string) :
  (status ua ≠ UA_STATUS_READY c →
   register c ua = (Throw NotReadyError, ua, []) ∧
   deregister c all ua = (Throw NotReadyError, ua, []) ∧
   call c env target ua = (Throw NotReadyError, ua, []) ∧
   message c env target body content_type ua = (Throw NotReadyError, ua, [])) ∧
  (status ua = UA_STATUS_READY c →
   result (register c ua) ≠ Throw NotReadyError ∧
   result (deregister c all ua) ≠ Throw NotReadyError ∧
   result (call c env target ua) ≠ Throw NotReadyError ∧
   result (message c env target body content_type ua) ≠ Throw NotReadyError).
Proof.
  split; intros Hst.
  - unfold register, deregister, call, message, bind, read. cbn [fst snd].
    by rewrite !bool_decide_eq_false_2 by done.
  - unfold register, deregister, call, message, bind, read, result.
    cbn [fst snd]. rewrite !bool_decide_eq_true_2 by done. cbn [negb].
    split_and!.
    + by destruct (registrator ua).
    + by destruct (registrator ua).
    + destruct (isWebRtcSupported env); [| done]. cbn [negb fst snd].
      by destruct (truthy _).
    + by destruct (truthy _).
Qed.

(** On a READY engine with a registrator, [register()] and
    [deregister()] reach it. *)
Lemma register_ready (ua : UA) (r : Registrator) (all : bool) :
  status ua = UA_STATUS_READY c → registrator ua = Some r →
  register c ua = (Return tt, ua, [registrator_register]) ∧
  deregister c all ua = (Return tt, ua, [registrator_deregister all]).
Proof.
  intros Hst Hr. unfold register, deregister, bind, read. cbn [fst snd].
  by rewrite !bool_decide_eq_true_2, Hr by done.
Qed.

End PublicOperations.

Lemma stop_not_ready_witness :
  stop sip_c quiet_env alice_init = (Throw NotReadyError, alice_init, []).
Proof.
  apply (stop_not_ready sip_c quiet_env alice_init). discriminate.
Defined.

Lemma public_operations_need_READY_witness :
  (register sip_c alice_init = (Throw NotReadyError, alice_init, []) ∧
   deregister sip_c true alice_init = (Throw NotReadyError, alice_init, []) ∧
   call sip_c quiet_env "bob" alice_init
   = (Throw NotReadyError, alice_init, []) ∧
   message sip_c quiet_env "bob" "hello" None alice_init
   = (Throw NotReadyError, alice_init, [])) ∧
  (result (register sip_c (alice_ready None)) ≠ Throw NotReadyError ∧
   result (deregister sip_c true (alice_ready None)) ≠ Throw NotReadyError ∧
   result (call sip_c quiet_env "bob" (alice_ready None))
   ≠ Throw NotReadyError ∧
   result (message sip_c quiet_env "bob" "hello" None (alice_ready None))
   ≠ Throw NotReadyError).
Proof.
  split.
  - apply (public_operations_need_READY sip_c quiet_env alice_init true
             "bob" "hello" None).
    discriminate.
  - apply (public_operations_need_READY sip_c quiet_env (alice_ready None)
             true "bob" "hello" None).
    reflexivity.
Defined.

(** ** C7, C8: the transport events *)

Section TransportEvents.

Variable c : Constants.
Variable env : Env.

Lemma write_server_status_lookup (ua : UA) (r : server_ref) (v : Z) (s : WsServer) :
  outbound_proxy_set (configuration ua) !! r = Some s →
  outbound_proxy_set (configuration (write_server_status r v ua)) !! r
  = Some (set_ws_status v s).
Proof.
  intros Hs. unfold write_server_status, set_outbound_proxy_set.
  cbn [configuration outbound_proxy_set].
  by rewrite list_lookup_alter_eq, Hs.
Qed.

Lemma write_server_status_lookup_ne (ua : UA) (r r' : server_ref) (v : Z) :
  r ≠ r' →
  outbound_proxy_set (configuration (write_server_status r v ua)) !! r'
  = outbound_proxy_set (configuration ua) !! r'.
Proof.
  intros Hne. unfold write_server_status, set_outbound_proxy_set.
  cbn [configuration outbound_proxy_set].
  by rewrite list_lookup_alter_ne.
Qed.

(** [onTransportError] when the selector still finds a server: a new
    transport is opened on it and the engine state stays. *)
Lemma onTransportError_failover (ua : UA) (transport : Transport) (r : server_ref) :
  result (getNextWsServer env
            (write_server_status (server transport) (WS_SERVER_ERROR c) ua))
  = Return (Some r) →
  onTransportError c env transport ua =
  (Return tt, write_server_status (server transport) (WS_SERVER_ERROR c) ua,
   [new_Transport (Some r)]).
Proof.
  intros Hnext. unfold onTransportError.
  unfold bind at 1, assign at 1. cbn [fst snd].
  unfold bind at 1. rewrite getNextWsServer_run, Hnext. by cbn.
Qed.

Lemma onTransportError_exhausted_run (ua : UA) (transport : Transport) :
  result (getNextWsServer env
            (write_server_status (server transport) (WS_SERVER_ERROR c) ua))
  = Return None →
  onTransportError c env transport ua =
  (Return tt,
   set_error (Some (UA_NETWORK_ERROR c))
     (set_status (UA_STATUS_NOT_READY c)
        (write_server_status (server transport) (WS_SERVER_ERROR c) ua)),
   ((λ idx, session_onTransportError idx.2) <$> map_to_list (sessions ua)) ++
   match registrator ua with
   | Some _ => [registrator_onTransportClosed]
   | None => []
   end ++
   [emit "disconnect"]).
Proof.
  intros Hnext. unfold onTransportError.
  unfold bind at 1, assign at 1. cbn [fst snd].
  unfold bind at 1. rewrite getNextWsServer_run, Hnext. cbn [fst snd app].
  unfold bind at 1. rewrite closeSessionsOnTransportError_run.
  unfold bind, assign, perform. cbn [fst snd].
  by rewrite <- app_assoc.
Qed.

(** C7. [onTransportError] when the selector finds no server: every
    session gets [onTransportError], the registrator (if there is one)
    gets [onTransportClosed], the status becomes NOT_READY with the
    network error as cause, and [disconnect] is emitted once, last; no
    transport is opened. *)
Theorem onTransportError_exhausted (ua : UA) (transport : Transport) :
  result (getNextWsServer env
            (write_server_status (server transport) (WS_SERVER_ERROR c) ua))
  = Return None →
  result (onTransportError c env transport ua) = Return tt ∧
  status (final (onTransportError c env transport ua))
  = UA_STATUS_NOT_READY c ∧
  error (final (onTransportError c env transport ua))
  = Some (UA_NETWORK_ERROR c) ∧
  trace (onTransportError c env transport ua)
  = ((λ idx, session_onTransportError idx.2) <$> map_to_list (sessions ua)) ++
    match registrator ua with
    | Some _ => [registrator_onTransportClosed]
    | None => []
    end ++
    [emit "disconnect"] ∧
  (∀ k s, sessions ua !! k = Some s →
          session_onTransportError s
          ∈ trace (onTransportError c env transport ua)) ∧
  (∀ r, registrator ua = Some r →
        registrator_onTransportClosed
        ∈ trace (onTransportError c env transport ua)) ∧
  count_effect (emit "disconnect")
    (trace (onTransportError c env transport ua)) = 1%nat.
Proof.
  intros Hnext.
  rewrite (onTransportError_exhausted_run ua transport Hnext).
  unfold result, final, trace. cbn [fst snd].
  split_and!; [done | done | done | done | | |].
  - intros k s Hk. apply elem_of_app. left.
    apply (list_elem_of_fmap_2 (λ idx, session_onTransportError idx.2) _ (k, s)).
    by apply elem_of_map_to_list.
  - intros r ->. apply elem_of_app. right. by left.
  - unfold count_effect. rewrite !filter_app, filter_none.
    + by destruct (registrator ua).
    + by intros e (x & -> & _)%list_elem_of_fmap.
Qed.

(** [onTransportClosed]: the server is marked, every transaction is
    told, and the sessions are closed unless the contact has a GRUU. *)
Lemma onTransportClosed_run (ua : UA) (transport : Transport) :
  ∃ t, onTransportClosed c transport ua =
       (Return tt,
        write_server_status (server transport) (WS_SERVER_DISCONNECTED c) ua,
        t).
Proof.
  unfold onTransportClosed.
  unfold bind at 1, assign at 1. cbn [fst snd].
  unfold bind at 1, read at 1. cbn [fst snd].
  unfold bind at 1. cbn [for_in].
  unfold bind at 1. rewrite for_in_perform.
  unfold bind at 1. rewrite for_in_perform.
  unfold bind at 1. rewrite for_in_perform.
  unfold bind at 1. rewrite for_in_perform.
  unfold ret at 1. unfold bind at 1, read at 1. cbn [fst snd].
  destruct (truthy _); cbn [negb].
  - by eexists.
  - rewrite closeSessionsOnTransportError_run. by eexists.
Qed.

(** [onTransportConnected] on an engine that the user closed: the
    transport is kept and its server marked; nothing else. *)
Lemma onTransportConnected_closed (ua : UA) (transport : Transport) :
  status ua = UA_STATUS_USER_CLOSED c →
  onTransportConnected c env transport ua =
  (Return tt,
   write_server_status (server transport) (WS_SERVER_READY c)
     (set_transport transport ua),
   []).
Proof.
  intros Hst. unfold onTransportConnected, bind, assign, read.
  cbn [fst snd]. change (status (write_server_status _ _ _)) with (status ua).
  by rewrite bool_decide_eq_true_2 by done.
Qed.

(** [onTransportConnected] otherwise: the registration is resumed or
    started when [auto_register] is set, the engine becomes READY
    without cause, and [connect] is emitted. *)
Lemma onTransportConnected_open (ua : UA) (transport : Transport) :
  status ua ≠ UA_STATUS_USER_CLOSED c →
  onTransportConnected c env transport ua =
  (Return tt,
   set_error None
     (set_status (UA_STATUS_READY c)
        (if auto_register (configuration ua) then
           match registrator ua with
           | Some _ =>
               write_server_status (server transport) (WS_SERVER_READY c)
                 (set_transport transport ua)
           | None =>
               set_registrator (Registrator_new env)
                 (write_server_status (server transport) (WS_SERVER_READY c)
                    (set_transport transport ua))
           end
         else
           write_server_status (server transport) (WS_SERVER_READY c)
             (set_transport transport ua))),
   (if auto_register (configuration ua) then
      match registrator ua with
      | Some _ => [registrator_onTransportConnected]
      | None => [new_Registrator]
      end
    else []) ++ [emit "connect"]).
Proof.
  intros Hst. unfold onTransportConnected.
  unfold bind at 1, assign at 1. cbn [fst snd].
  unfold bind at 1, assign at 1. cbn [fst snd].
  unfold bind at 1, read at 1. cbn [fst snd].
  change (status (write_server_status _ _ _)) with (status ua).
  rewrite bool_decide_eq_false_2 by done.
  unfold bind at 1, read at 1. cbn [fst snd].
  change (auto_register (configuration (write_server_status _ _ _)))
    with (auto_register (configuration ua)).
  destruct (auto_register (configuration ua)).
  - unfold bind, read, perform, assign. cbn [fst snd].
    change (registrator (write_server_status _ _ _)) with (registrator ua).
    by destruct (registrator ua).
  - by unfold bind, read, perform, assign, ret.
Qed.

End TransportEvents.

(** ** The life cycle *)

Section LifeCycle.

Variable c : Constants.

(** What one entry point can do to [status] and [error]. *)
Lemma entry_point_state (env : Env) (m : M unit) (ua : UA) :
  entry_point c env m →
  (status (final (m ua)) = status ua ∧ error (final (m ua)) = error ua) ∨
  (status ua = UA_STATUS_READY c ∧
   status (final (m ua)) = UA_STATUS_USER_CLOSED c ∧
   error (final (m ua)) = error ua) ∨
  (status ua = UA_STATUS_USER_CLOSED c ∧
   status (final (m ua)) = UA_STATUS_READY c ∧
   error (final (m ua)) = error ua) ∨
  (status (final (m ua)) = UA_STATUS_NOT_READY c ∧
   error (final (m ua)) = Some (UA_NETWORK_ERROR c)) ∨
  (status (final (m ua)) = UA_STATUS_READY c ∧
   error (final (m ua)) = None).
Proof.
  intros [| | all | | target | target body content_type | | | transport
          | transport | transport | request].
  - left. unfold networkIsReady, bind, read, final. cbn [fst snd].
    destruct (_ && _); [| done]. by destruct (transport ua).
  - left. unfold register, bind, read, final. cbn [fst snd].
    case_bool_decide; [| done]. by destruct (registrator ua).
  - left. unfold deregister, bind, read, final. cbn [fst snd].
    case_bool_decide; [| done]. by destruct (registrator ua).
  - left. unfold isRegistered, bind, read, final. cbn [fst snd].
    destruct (registrator ua) as [[[]] |]; done.
  - left. unfold call, bind, read, final. cbn [fst snd].
    case_bool_decide; cbn [negb]; [| done].
    destruct (isWebRtcSupported env); cbn [negb fst snd]; [| done].
    by destruct (truthy _).
  - left. unfold message, bind, read, final. cbn [fst snd].
    case_bool_decide; cbn [negb fst snd]; [| done].
    by destruct (truthy _).
  - destruct (decide (status ua = UA_STATUS_READY c)) as [Hst | Hst].
    + right. left. by rewrite stop_ready.
    + left. unfold stop, bind, read, final. cbn [fst snd].
      by rewrite bool_decide_eq_false_2 by done.
  - unfold start, getNextWsServer, bind, read, assign, perform, ret, final.
    cbn [fst snd].
    case_bool_decide as Hinit; [by left |].
    case_bool_decide as Hclosed; [| left; by case_bool_decide].
    right. right. left.
    change (transport (set_status _ ua)) with (transport ua).
    by destruct (transport ua).
  - left. by destruct (onTransportClosed_run c ua transport) as [t ->].
  - destruct (result (getNextWsServer env
                 (write_server_status (server transport) (WS_SERVER_ERROR c) ua)))
      as [[r |] | e] eqn:Hnext.
    + left. by rewrite (onTransportError_failover c env ua transport r).
    + right. right. right. left.
      by rewrite (onTransportError_exhausted_run c env ua transport Hnext).
    + discriminate Hnext.
  - destruct (decide (status ua = UA_STATUS_USER_CLOSED c)) as [Hst | Hst].
    + left. by rewrite onTransportConnected_closed.
    + right. right. right. right. by rewrite onTransportConnected_open.
  - left. by destruct (receiveRequest_replies_bound c env ua request)
      as (_ & -> & _).
Qed.


End LifeCycle.

Section Connected.

Variable c : Constants.
Variable env : Env.



End Connected.



(** When the failed server was the last one that was not excluded, and
    the table's error mark is the 2 that the selector skips, the
    selector finds nothing. *)
Lemma getNextWsServer_after_last_error (c : Constants) (env : Env)
    (ua : UA) (transport : Transport) :
  WS_SERVER_ERROR c = 2 →
  (∀ i s, outbound_proxy_set (configuration ua) !! i = Some s →
          i ≠ server transport → ws_status s = 2) →
  result (getNextWsServer env
            (write_server_status (server transport) (WS_SERVER_ERROR c) ua))
  = Return None.
Proof.
  intros Hmark Hothers. apply getNextWsServer_none.
  intros s (i & Hi)%list_elem_of_lookup.
  destruct (decide (server transport = i)) as [<- | Hne].
  - destruct (outbound_proxy_set (configuration ua) !! server transport)
      as [s0 |] eqn:Hs0.
    + rewrite (write_server_status_lookup ua _ _ s0 Hs0) in Hi.
      injection Hi as <-. exact Hmark.
    + unfold write_server_status, set_outbound_proxy_set in Hi.
      cbn [configuration outbound_proxy_set] in Hi.
      rewrite list_lookup_alter_eq, Hs0 in Hi. discriminate.
  - rewrite write_server_status_lookup_ne in Hi by done.
    eapply Hothers; [exact Hi | congruence].
Qed.

Lemma onTransportError_exhausted_witness :
  result (onTransportError sip_c quiet_env first_transport alice_single)
  = Return tt ∧
  status (final (onTransportError sip_c quiet_env first_transport alice_single))
  = 3 ∧
  error (final (onTransportError sip_c quiet_env first_transport alice_single))
  = Some 2 ∧
  trace (onTransportError sip_c quiet_env first_transport alice_single)
  = ((λ idx, session_onTransportError idx.2) <$>
       map_to_list (sessions alice_single)) ++
    [registrator_onTransportClosed] ++ [emit "disconnect"] ∧
  (∀ k s, sessions alice_single !! k = Some s →
          session_onTransportError s
          ∈ trace (onTransportError sip_c quiet_env first_transport alice_single)) ∧
  (∀ r, registrator alice_single = Some r →
        registrator_onTransportClosed
        ∈ trace (onTransportError sip_c quiet_env first_transport alice_single)) ∧
  count_effect (emit "disconnect")
    (trace (onTransportError sip_c quiet_env first_transport alice_single))
  = 1%nat.
Proof.
  apply (onTransportError_exhausted sip_c quiet_env alice_single first_transport).
  reflexivity.
Defined.


(** * Further properties of the engine *)

(** ** The selector *)

(** X1. With a draw in [0, 1), [getNextWsServer] returns [undefined]
    exactly when every entry of the candidate array is excluded;
    otherwise it returns an entry that is not excluded and that no
    entry that is not excluded outweighs. *)
Theorem getNextWsServer_undefined_iff_exhausted (env : Env) (ua : UA) :
  (0 <= Math_random env)%Q → (Math_random env < 1)%Q →
  (result (getNextWsServer env ua) = Return None ↔
   ∀ s, s ∈ outbound_proxy_set (configuration ua) → ws_status s = 2) ∧
  ((∃ s, s ∈ outbound_proxy_set (configuration ua) ∧ ws_status s ≠ 2) →
   ∃ r s, result (getNextWsServer env ua) = Return (Some r) ∧
          outbound_proxy_set (configuration ua) !! r = Some s ∧
          ws_status s ≠ 2 ∧
          ∀ j s', outbound_proxy_set (configuration ua) !! j = Some s' →
                  ws_status s' ≠ 2 → weight s' ≤ weight s).
Proof.
  intros Hq0 Hq1.
  assert (Hsome :
    (∃ s, s ∈ outbound_proxy_set (configuration ua) ∧ ws_status s ≠ 2) →
    ∃ r s, result (getNextWsServer env ua) = Return (Some r) ∧
           outbound_proxy_set (configuration ua) !! r = Some s ∧
           ws_status s ≠ 2 ∧
           ∀ j s', outbound_proxy_set (configuration ua) !! j = Some s' →
                   ws_status s' ≠ 2 → weight s' ≤ weight s).
  { intros Hex.
    destruct (getNextWsServer_returns env ua Hq0 Hq1 Hex) as [r Hr].
    destruct (getNextWsServer_some env ua r Hr) as (s & Hs).
    by exists r, s. }
  split; [| exact Hsome].
  split; [| apply getNextWsServer_none].
  intros Hnone s Hs.
  destruct (decide (ws_status s = 2)) as [| Hne]; [done | exfalso].
  destruct Hsome as (r & s' & Hr & _); [by exists s |].
  rewrite Hr in Hnone. discriminate.
Qed.

Lemma getNextWsServer_undefined_iff_exhausted_witness :
  ∃ r s, result (getNextWsServer quiet_env alice_init) = Return (Some r) ∧
         outbound_proxy_set (configuration alice_init) !! r = Some s ∧
         ws_status s ≠ 2 ∧
         ∀ j s', outbound_proxy_set (configuration alice_init) !! j = Some s' →
                 ws_status s' ≠ 2 → weight s' ≤ weight s.
Proof.
  apply (getNextWsServer_undefined_iff_exhausted quiet_env alice_init).
  - discriminate.
  - reflexivity.
  - exists {| ws_uri := "ws://a.example.com/"; weight := 1; ws_status := 0 |}.
    split; [by left | discriminate].
Defined.

(** ** The registries *)

(** X3. For a request with call-id [C], from-tag [A] and to-tag [B],
    [findSession] returns the session filed under [C+A] if there is
    one; else the inherited member that [C+A] names, if it names one,
    whatever is filed under [C+B]; else the session filed under [C+B]
    if there is one; else [null] when [C+B] names no inherited member
    either.  It changes nothing, and the request with the tags swapped
    finds nothing exactly when this one finds nothing.  A request
    without to-tag looks its second key up under [C] followed by the
    text "undefined". *)
Theorem findSession_aliases (env : Env) (ua : UA) (m : string)
    (u : js_string) (C A B : string) :
  (∀ s, sessions ua !! (C +:+ A) = Some s →
        findSession env (mk_request m u C (Some A) (Some B)) ua
        = (Return (Some (Own s)), ua, [])) ∧
  (sessions ua !! (C +:+ A) = None → Object_prototype env (C +:+ A) = true →
   findSession env (mk_request m u C (Some A) (Some B)) ua
   = (Return (Some (Inherited (C +:+ A))), ua, [])) ∧
  (∀ s, sessions ua !! (C +:+ A) = None →
        Object_prototype env (C +:+ A) = false →
        sessions ua !! (C +:+ B) = Some s →
        findSession env (mk_request m u C (Some A) (Some B)) ua
        = (Return (Some (Own s)), ua, [])) ∧
  (sessions ua !! (C +:+ A) = None → Object_prototype env (C +:+ A) = false →
   sessions ua !! (C +:+ B) = None → Object_prototype env (C +:+ B) = false →
   findSession env (mk_request m u C (Some A) (Some B)) ua
   = (Return None, ua, [])) ∧
  (result (findSession env (mk_request m u C (Some A) (Some B)) ua)
   = Return None ↔
   result (findSession env (mk_request m u C (Some B) (Some A)) ua)
   = Return None) ∧
  (sessions ua !! (C +:+ A) = None → Object_prototype env (C +:+ A) = false →
   findSession env (mk_request m u C (Some A) None) ua
   = (Return (get_property env (sessions ua) (C +:+ "undefined")), ua, [])).
Proof.
  rewrite !findSession_value. unfold session_of, get_property, result. simpl.
  destruct (sessions ua !! (C +:+ A)) as [s1 |] eqn:E1;
    destruct (sessions ua !! (C +:+ B)) as [s2 |] eqn:E2;
    destruct (Object_prototype env (C +:+ A)) eqn:P1;
    destruct (Object_prototype env (C +:+ B)) eqn:P2; simpl;
    split_and!; try done; try (by intros ? [= ->]);
    try (by intros ? ? ? [= ->]).
Qed.

Lemma findSession_aliases_witness :
  findSession quiet_env
    (mk_request "NOTIFY" (Some "alice") "c1" (Some "tz") (Some "ta"))
    (alice_ready None)
  = (Return (Some (Own (SessionObj 3))), alice_ready None, []) ∧
  findSession quiet_env toString_notify (alice_ready None)
  = (Return (Some (Inherited "toString")), alice_ready None, []).
Proof.
  split.
  - apply (proj1 (proj2 (proj2 (findSession_aliases quiet_env (alice_ready None)
                                  "NOTIFY" (Some "alice") "c1" "tz" "ta"))));
      reflexivity.
  - apply (proj1 (proj2 (findSession_aliases quiet_env (alice_ready None)
                           "NOTIFY" (Some "alice") "toStr" "ing" "x")));
      reflexivity.
Defined.

(** X4. The dialog key is the plain concatenation of call-id and tags:
    a request finds the dialog filed for another call-id and other tags
    whenever the three strings of both concatenate to the same text. *)
Theorem findDialog_key_without_separator (env : Env) (ua : UA)
    (request : IncomingRequest) (C A B : string) (d : Dialog) :
  dialogs ua !! (C +:+ A +:+ B) = Some d →
  call_id request +:+ to_string (from_tag request)
                  +:+ to_string (to_tag request)
  = C +:+ A +:+ B →
  findDialog env request ua = (Return (Some (Own d)), ua, []).
Proof.
  intros Hd Hkey. rewrite findDialog_value. unfold dialog_of.
  by rewrite Hkey, (get_property_Own env _ _ d Hd).
Qed.

Lemma findDialog_key_without_separator_witness :
  findDialog quiet_env
    (mk_request "BYE" (Some "alice") "c" (Some "1ta") (Some "tb"))
    (alice_ready None)
  = (Return (Some (Own (DialogObj 7))), alice_ready None, []).
Proof.
  apply (findDialog_key_without_separator quiet_env (alice_ready None)
           (mk_request "BYE" (Some "alice") "c" (Some "1ta") (Some "tb"))
           "c1" "ta" "tb" (DialogObj 7)).
  - reflexivity.
  - reflexivity.
Defined.

(** ** The request dispatcher *)

Ltac by_distinct_methods Hd :=
  exfalso; unfold methods_distinct in Hd;
  rewrite !NoDup_cons, !not_elem_of_cons in Hd;
  intuition congruence.

Ltac method_cases Hd :=
  repeat (case_bool_decide; try (by_distinct_methods Hd)).

Section DispatcherExtras.

Variable c : Constants.
Variable env : Env.

Lemma isRegistered_value (ua : UA) :
  isRegistered ua =
  (Return match registrator ua with
          | Some r => registered r
          | None => false
          end, ua, []).
Proof.
  unfold isRegistered, bind, read, ret. cbn [fst snd].
  by destruct (registrator ua) as [[[]] |].
Qed.

(** X5. Whatever the request and the engine, [receiveRequest] assigns
    nothing, asks the transaction layer at most once, creates at most
    one server transaction, hands the request to at most one
    collaborator, and replies at most once to a request whose method is
    not OPTIONS.  It raises nothing but a TypeError, and when it raises
    the request has been handed to nobody.  With a constant table
    whose method names differ, it raises exactly when the request is
    for the engine's user, is not known to the transaction layer, and
    the look-up that routes it comes back with an inherited member:
    [findDialog] for a request with a to-tag; [findSession] for a
    NOTIFY with a to-tag for which [findDialog] returns [null];
    [findSession] for a CANCEL without to-tag when [isRegistered()] is
    true. *)
Theorem receiveRequest_outcome (ua : UA) (request : IncomingRequest) :
  final (receiveRequest c env request ua) = ua ∧
  (count_effect Transactions_checkTransaction
     (trace (receiveRequest c env request ua)) ≤ 1)%nat ∧
  (length (filter is_server_transaction
             (trace (receiveRequest c env request ua))) ≤ 1)%nat ∧
  (length (filter is_handoff
             (trace (receiveRequest c env request ua))) ≤ 1)%nat ∧
  (method request ≠ OPTIONS c →
   (length (replies (trace (receiveRequest c env request ua))) ≤ 1)%nat) ∧
  (result (receiveRequest c env request ua) = Return tt ∨
   result (receiveRequest c env request ua) = Throw TypeError) ∧
  (result (receiveRequest c env request ua) = Throw TypeError →
   filter is_handoff (trace (receiveRequest c env request ua)) = []) ∧
  (methods_distinct c →
   (result (receiveRequest c env request ua) = Throw TypeError ↔
    ruri_user request = user (configuration ua) ∧
    checkTransaction env ua request = false ∧
    ((truthy (to_tag request) = true ∧
      ((∃ name, result (findDialog env request ua)
                = Return (Some (Inherited name))) ∨
       (result (findDialog env request ua) = Return None ∧
        method request = NOTIFY c ∧
        ∃ name, result (findSession env request ua)
                = Return (Some (Inherited name))))) ∨
     (truthy (to_tag request) = false ∧
      result (isRegistered ua) = Return true ∧
      method request = CANCEL c ∧
      ∃ name, result (findSession env request ua)
              = Return (Some (Inherited name)))))).
Proof.
  rewrite findDialog_value, findSession_value, isRegistered_value.
  destruct (decide (ruri_user request = user (configuration ua))) as [Hu | Hu].
  - destruct (checkTransaction env ua request) eqn:Hcheck.
    + rewrite receiveRequest_retransmission by done.
      split_and!; try done; try (by left); try (intros; vm_compute; lia).
      intros _. split; [done | by intros (_ & ? & _)].
    + rewrite receiveRequest_run by done.
      unfold result, final, trace, count_effect, replies. cbn [fst snd].
      change (Transactions_checkTransaction :: ?t)
        with ([Transactions_checkTransaction] ++ t).
      rewrite !filter_app, !length_app.
      split_and!; [done | | | | | apply routing_outcome_cases | |].
      * unfold transaction_stage, options_stage, routing_stage,
          in_dialog_stage, initial_stage, session_handoff.
        repeat first [ case_bool_decide | case_match ]; simpl; lia.
      * unfold transaction_stage, options_stage, routing_stage,
          in_dialog_stage, initial_stage, session_handoff.
        repeat first [ case_bool_decide | case_match ]; simpl; lia.
      * unfold transaction_stage, options_stage, routing_stage,
          in_dialog_stage, initial_stage, session_handoff.
        repeat first [ case_bool_decide | case_match ]; simpl; lia.
      * intros Hm. unfold options_stage.
        rewrite bool_decide_eq_false_2 by done.
        unfold transaction_stage, routing_stage, in_dialog_stage,
          initial_stage, session_handoff.
        repeat first [ case_bool_decide | case_match ]; simpl; lia.
      * unfold routing_outcome, in_dialog_outcome, initial_outcome,
          handoff_outcome, transaction_stage, options_stage, routing_stage,
          in_dialog_stage, initial_stage, session_handoff.
        destruct (truthy (to_tag request));
          destruct (dialog_of env ua request) as [[d | dname] |];
          destruct (session_of env ua request) as [[s | sname] |];
          repeat first [ case_bool_decide | case_match ];
          done.
      * intros Hd.
        unfold routing_outcome, in_dialog_outcome, initial_outcome,
          handoff_outcome.
        destruct (truthy (to_tag request)).
        -- destruct (dialog_of env ua request) as [[d | dname] |].
           ++ split; [done |]. intros (_ & _ & [(_ & [[? ?] | [? _]]) | [? _]]);
                done.
           ++ split; [| done]. intros _. split_and!; [done | done |].
              left. split; [done |]. left. by eexists.
           ++ case_bool_decide as Hn.
              ** destruct (session_of env ua request) as [[s | sname] |].
                 --- split; [done |].
                     intros (_ & _ & [(_ & [[? ?] | (_ & _ & [? ?])]) | [? _]]);
                       done.
                 --- split; [| done]. intros _. split_and!; [done | done |].
                     left. split; [done |]. right. split_and!; [done | done |].
                     by eexists.
                 --- split; [done |].
                     intros (_ & _ & [(_ & [[? ?] | (_ & _ & [? ?])]) | [? _]]);
                       done.
              ** split; [done |].
                 intros (_ & _ & [(_ & [[? ?] | (_ & ? & _)]) | [? _]]); done.
        -- destruct (registrator ua) as [[[]] |]; cbn [registered negb].
           ++ destruct (decide (method request = CANCEL c)) as [Hc | Hc].
              ** rewrite Hc. method_cases Hd.
                 destruct (session_of env ua request) as [[s | sname] |].
                 --- split; [done |].
                     intros (_ & _ & [[? _] | (_ & _ & _ & [? ?])]); done.
                 --- split; [| done]. intros _. split_and!; [done | done |].
                     right. split_and!; [done | done | done | by eexists].
                 --- split; [done |].
                     intros (_ & _ & [[? _] | (_ & _ & _ & [? ?])]); done.
              ** split.
                 --- repeat case_bool_decide; done.
                 --- intros (_ & _ & [[? _] | (_ & _ & ? & _)]); done.
           ++ split; [done |].
              intros (_ & _ & [[? _] | (_ & ? & _)]); done.
           ++ split; [done |].
              intros (_ & _ & [[? _] | (_ & ? & _)]); done.
  - rewrite receiveRequest_not_for_us by done.
    split_and!; try done; try (by left); try (intros; vm_compute; lia).
    intros _. split; [done | by intros (? & _)].
Qed.


End DispatcherExtras.

Lemma receiveRequest_outcome_witness :
  result (receiveRequest sip_c quiet_env toString_notify alice_registered)
  = Throw TypeError.
Proof.
  apply (proj2 (proj2 (proj2 (proj2 (proj2 (proj2 (proj2
           (receiveRequest_outcome sip_c quiet_env alice_registered
              toString_notify))))))) sip_c_methods_distinct).
  split_and!; [reflexivity | reflexivity |].
  left. split; [reflexivity |]. right.
  split_and!; [reflexivity | reflexivity | by eexists].
Defined.


Section RoutingExtras.

Variable c : Constants.
Variable env : Env.




(** X9. Among the initial requests that pass the identity and the
    duplicate check, those answered 410 are exactly the ones that find
    [isRegistered()] false. *)
Theorem receiveRequest_410_iff_unregistered (ua : UA) (request : IncomingRequest) :
  ruri_user request = user (configuration ua) →
  checkTransaction env ua request = false →
  truthy (to_tag request) = false →
  (replies_with 410 (trace (receiveRequest c env request ua)) ≠ [] ↔
   result (isRegistered ua) = Return false).
Proof.
  intros Hu Hcheck Htag.
  rewrite receiveRequest_run by done.
  rewrite isRegistered_value.
  unfold trace, result, routing_stage. cbn [fst snd]. rewrite Htag.
  change (Transactions_checkTransaction :: ?t)
    with ([Transactions_checkTransaction] ++ t).
  rewrite !replies_with_app.
  assert (Hpre : replies_with 410 [Transactions_checkTransaction] ++
                 replies_with 410 (transaction_stage c (method request)) ++
                 replies_with 410 (options_stage c (method request)) = []).
  { unfold transaction_stage, options_stage. by repeat case_bool_decide. }
  rewrite !app_assoc. rewrite <- (app_assoc _ _ (replies_with 410 (options_stage _ _))).
  rewrite Hpre. cbn [app].
  unfold initial_stage.
  destruct (registrator ua) as [[[]] |]; cbn [registered negb].
  - split; [| done]. intros Hne. exfalso. apply Hne.
    unfold session_handoff.
    repeat first [ case_bool_decide | case_match ]; done.
  - done.
  - done.
Qed.


(** X11. With a constant table whose method names differ, a NOTIFY
    with a to-tag, for the engine's user and not known to the
    transaction layer, for which [findDialog] returns [null] falls
    back on [findSession]: a session that it finds gets the
    request and no reply is sent; when it returns [null] the reply is
    a 481 with the reason "Subscription does not exist"; and when it
    returns an inherited member the dispatcher raises a TypeError and
    sends nothing. *)
Theorem receiveRequest_NOTIFY_fallback (ua : UA) (request : IncomingRequest) :
  methods_distinct c →
  method request = NOTIFY c →
  ruri_user request = user (configuration ua) →
  checkTransaction env ua request = false →
  truthy (to_tag request) = true →
  result (findDialog env request ua) = Return None →
  receiveRequest c env request ua
  = match result (findSession env request ua) with
    | Return (Some (Own s)) =>
        (Return tt, ua,
         [Transactions_checkTransaction; new_NonInviteServerTransaction;
          session_receiveRequest s])
    | Return (Some (Inherited _)) =>
        (Throw TypeError, ua,
         [Transactions_checkTransaction; new_NonInviteServerTransaction])
    | _ =>
        (Return tt, ua,
         [Transactions_checkTransaction; new_NonInviteServerTransaction;
          request_reply 481 "Subscription does not exist" []])
    end.
Proof.
  intros Hd Hm Hu Hcheck Htag Hfind.
  rewrite findDialog_value in Hfind. injection Hfind as Hfind.
  rewrite receiveRequest_run by done.
  rewrite findSession_value.
  unfold result, routing_outcome, in_dialog_outcome, routing_stage,
    in_dialog_stage. cbn [fst snd].
  rewrite Htag, Hfind.
  unfold transaction_stage, options_stage. rewrite Hm.
  method_cases Hd. by destruct (session_of env ua request) as [[s | name] |].
Qed.

(** X12. With a constant table whose method names differ, an ACK
    never gets a server transaction, and the dispatcher replies to it
    in two cases only: with the stateless 404 when the request URI
    names another user; and, when the ACK is for the engine's user and
    the transaction layer does not know it, with the 410 when it has
    no to-tag and [isRegistered()] is false. *)
Theorem receiveRequest_ACK (ua : UA) (request : IncomingRequest) :
  methods_distinct c →
  method request = ACK c →
  filter is_server_transaction (trace (receiveRequest c env request ua)) = [] ∧
  replies (trace (receiveRequest c env request ua))
  = if negb (bool_decide (ruri_user request = user (configuration ua)))
    then [request_reply_sl 404 (REASON_404 c)]
    else if checkTransaction env ua request then []
    else if truthy (to_tag request) then []
    else match result (isRegistered ua) with
         | Return true => []
         | _ => [request_reply 410 (REASON_410 c) []]
         end.
Proof.
  intros Hd Hm.
  case_bool_decide as Hu; cbn [negb]; cycle 1.
  { by rewrite receiveRequest_not_for_us by done. }
  destruct (checkTransaction env ua request) eqn:Hcheck.
  { by rewrite receiveRequest_retransmission by done. }
  rewrite receiveRequest_run by done.
  rewrite isRegistered_value.
  unfold trace, result, routing_stage, in_dialog_stage, initial_stage.
  cbn [fst snd].
  unfold transaction_stage, options_stage. rewrite Hm.
  method_cases Hd.
  destruct (truthy (to_tag request)).
  - by destruct (dialog_of env ua request) as [[d | name] |].
  - by destruct (registrator ua) as [[[]] |].
Qed.

End RoutingExtras.



Lemma receiveRequest_410_iff_unregistered_witness :
  replies_with 410
    (trace (receiveRequest sip_c quiet_env (initial_request "INVITE")
              (alice_ready None))) ≠ [].
Proof.
  apply (receiveRequest_410_iff_unregistered sip_c quiet_env (alice_ready None)
           (initial_request "INVITE")).
  - reflexivity.
  - reflexivity.
  - reflexivity.
  - reflexivity.
Defined.


Lemma receiveRequest_NOTIFY_fallback_witness :
  receiveRequest sip_c quiet_env stray_notify alice_registered
  = (Return tt, alice_registered,
     [Transactions_checkTransaction; new_NonInviteServerTransaction;
      request_reply 481 "Subscription does not exist" []]) ∧
  receiveRequest sip_c quiet_env notify_of_session alice_registered
  = (Return tt, alice_registered,
     [Transactions_checkTransaction; new_NonInviteServerTransaction;
      session_receiveRequest (SessionObj 3)]) ∧
  receiveRequest sip_c quiet_env toString_notify alice_registered
  = (Throw TypeError, alice_registered,
     [Transactions_checkTransaction; new_NonInviteServerTransaction]).
Proof.
  split_and!.
  - apply (receiveRequest_NOTIFY_fallback sip_c quiet_env alice_registered
             stray_notify sip_c_methods_distinct eq_refl eq_refl eq_refl
             eq_refl eq_refl).
  - apply (receiveRequest_NOTIFY_fallback sip_c quiet_env alice_registered
             notify_of_session sip_c_methods_distinct eq_refl eq_refl eq_refl
             eq_refl eq_refl).
  - apply (receiveRequest_NOTIFY_fallback sip_c quiet_env alice_registered
             toString_notify sip_c_methods_distinct eq_refl eq_refl eq_refl
             eq_refl eq_refl).
Defined.

Lemma receiveRequest_ACK_witness :
  replies (trace (receiveRequest sip_c quiet_env (initial_request "ACK")
                    (alice_ready None)))
  = [request_reply 410 "Gone" []] ∧
  replies (trace (receiveRequest sip_c quiet_env
                    (mk_request "ACK" (Some "bob") "c5" (Some "tx") None)
                    (alice_ready None)))
  = [request_reply_sl 404 "Not Found"].
Proof.
  split.
  - apply (receiveRequest_ACK sip_c quiet_env (alice_ready None)
             (initial_request "ACK") sip_c_methods_distinct eq_refl).
  - apply (receiveRequest_ACK sip_c quiet_env (alice_ready None)
             (mk_request "ACK" (Some "bob") "c5" (Some "tx") None)
             sip_c_methods_distinct eq_refl).
Defined.

(** ** The public operations *)

Section ApiExtras.

Variable c : Constants.
Variable env : Env.

Lemma statuses_distinct_ne :
  statuses_distinct c →
  UA_STATUS_INIT c ≠ UA_STATUS_READY c ∧
  UA_STATUS_INIT c ≠ UA_STATUS_USER_CLOSED c ∧
  UA_STATUS_INIT c ≠ UA_STATUS_NOT_READY c ∧
  UA_STATUS_READY c ≠ UA_STATUS_USER_CLOSED c ∧
  UA_STATUS_READY c ≠ UA_STATUS_NOT_READY c ∧
  UA_STATUS_USER_CLOSED c ≠ UA_STATUS_NOT_READY c.
Proof.
  unfold statuses_distinct. rewrite !NoDup_cons, !not_elem_of_cons.
  intuition congruence.
Qed.

(** X13. [stop()] on a READY engine returns normally after closing the
    registrator (when there is one), terminating every session, closing
    every applicant, in that order, and setting one timer of "5000" for
    the transport's disconnect; the status becomes USER_CLOSED, the
    timer's handle is kept, and the registries, the registrator, the
    transport, the cause and the configuration stay as they were. *)
Theorem stop_shuts_down (ua : UA) :
  status ua = UA_STATUS_READY c →
  result (stop c env ua) = Return tt ∧
  trace (stop c env ua)
  = match registrator ua with
    | Some _ => [registrator_close]
    | None => []
    end ++
    ((λ session, session_terminate session.2) <$> map_to_list (sessions ua)) ++
    ((λ applicant, applicant_close applicant.2) <$>
       map_to_list (applicants ua)) ++
    [window_setTimeout cb_transport_disconnect "5000"] ∧
  (∀ k s, sessions ua !! k = Some s →
          session_terminate s ∈ trace (stop c env ua)) ∧
  (∀ k a, applicants ua !! k = Some a →
          applicant_close a ∈ trace (stop c env ua)) ∧
  count_effect (window_setTimeout cb_transport_disconnect "5000")
    (trace (stop c env ua)) = 1%nat ∧
  final (stop c env ua)
  = set_shutdownGraceTimer (setTimeout_handle env)
      (set_status (UA_STATUS_USER_CLOSED c) ua).
Proof.
  intros Hst. rewrite stop_ready by done.
  unfold result, final, trace. cbn [fst snd].
  split_and!; [done | done | | | | done].
  - intros k s Hk. apply elem_of_app. right. apply elem_of_app. left.
    apply (list_elem_of_fmap_2 (λ session, session_terminate session.2) _ (k, s)).
    by apply elem_of_map_to_list.
  - intros k a Hk. apply elem_of_app. right. apply elem_of_app. right.
    apply elem_of_app. left.
    apply (list_elem_of_fmap_2 (λ applicant, applicant_close applicant.2) _ (k, a)).
    by apply elem_of_map_to_list.
  - unfold count_effect. rewrite !filter_app.
    rewrite (filter_none _ (_ <$> map_to_list (sessions ua))),
      (filter_none _ (_ <$> map_to_list (applicants ua))).
    + by destruct (registrator ua).
    + by intros e (x & -> & _)%list_elem_of_fmap.
    + by intros e (x & -> & _)%list_elem_of_fmap.
Qed.

(** X14. After a [stop()] that went through, a second [stop()] raises
    NotReadyError and does nothing: no second timer is set and nobody
    is told twice. *)
Theorem stop_twice (ua : UA) :
  statuses_distinct c →
  status ua = UA_STATUS_READY c →
  stop c env (final (stop c env ua))
  = (Throw NotReadyError, final (stop c env ua), []).
Proof.
  intros Hd Hst. apply statuses_distinct_ne in Hd as (_ & _ & _ & Hrc & _).
  rewrite (stop_ready c env ua) by done. unfold final. cbn [fst snd].
  unfold stop, bind, read. cbn [fst snd status set_shutdownGraceTimer set_status].
  by rewrite bool_decide_eq_false_2 by congruence.
Qed.

Lemma start_resume (ua : UA) (t : Transport) :
  UA_STATUS_INIT c ≠ UA_STATUS_USER_CLOSED c →
  status ua = UA_STATUS_USER_CLOSED c →
  transport ua = Some t →
  start c env ua
  = (Return tt, set_status (UA_STATUS_READY c) ua, [transport_connect]).
Proof.
  intros Hic Hst Ht. unfold start, bind, read, assign, perform.
  cbn [fst snd]. rewrite Hst.
  rewrite (bool_decide_eq_false_2 (UA_STATUS_USER_CLOSED c = _)) by congruence.
  rewrite (bool_decide_eq_true_2 (UA_STATUS_USER_CLOSED c = _)) by done.
  change (transport (set_status _ ua)) with (transport ua).
  by rewrite Ht.
Qed.

(** X15. [start()] by status: in INIT it opens a transport on the
    server that the selector returns and leaves the status; in
    USER_CLOSED it sets the status to READY and then reconnects the
    kept transport, raising a TypeError (with the status already READY)
    when there is none; in READY it does nothing; in any other status
    it raises NotReadyError and changes nothing. *)
Theorem start_by_status (ua : UA) :
  statuses_distinct c →
  (status ua = UA_STATUS_INIT c →
   ∃ server, result (getNextWsServer env ua) = Return server ∧
             start c env ua = (Return tt, ua, [new_Transport server])) ∧
  (status ua = UA_STATUS_USER_CLOSED c →
   start c env ua =
   match transport ua with
   | Some _ =>
       (Return tt, set_status (UA_STATUS_READY c) ua, [transport_connect])
   | None => (Throw TypeError, set_status (UA_STATUS_READY c) ua, [])
   end) ∧
  (status ua = UA_STATUS_READY c → start c env ua = (Return tt, ua, [])) ∧
  (status ua = UA_STATUS_NOT_READY c →
   start c env ua = (Throw NotReadyError, ua, [])).
Proof.
  intros Hd.
  apply statuses_distinct_ne in Hd as (Hir & Hic & Hin & Hrc & Hrn & Hcn).
  unfold start, bind, read, assign, perform, ret, throw.
  cbn [fst snd].
  split_and!; intros Hst; rewrite Hst.
  - rewrite (bool_decide_eq_true_2 (UA_STATUS_INIT c = _)) by done.
    rewrite getNextWsServer_run.
    destruct (result (getNextWsServer env ua)) as [server | e] eqn:Hr;
      [by exists server | discriminate Hr].
  - rewrite (bool_decide_eq_false_2 (UA_STATUS_USER_CLOSED c = _)) by congruence.
    rewrite (bool_decide_eq_true_2 (UA_STATUS_USER_CLOSED c = _)) by done.
    change (transport (set_status _ ua)) with (transport ua).
    by destruct (transport ua).
  - rewrite !(bool_decide_eq_false_2 (UA_STATUS_READY c = _)) by congruence.
    by rewrite bool_decide_eq_true_2 by done.
  - by rewrite !(bool_decide_eq_false_2 (UA_STATUS_NOT_READY c = _))
      by congruence.
Qed.

(** X16. [stop()] followed by [start()] on a READY engine that keeps a
    transport: the status is READY again, [start()] only reconnects the
    transport, and the timer that [stop()] set is still recorded: the
    resume does not withdraw the pending disconnect. *)
Theorem stop_then_start (ua : UA) (t : Transport) :
  statuses_distinct c →
  status ua = UA_STATUS_READY c →
  transport ua = Some t →
  start c env (final (stop c env ua))
  = (Return tt,
     set_status (UA_STATUS_READY c) (final (stop c env ua)),
     [transport_connect]) ∧
  status (final (start c env (final (stop c env ua)))) = UA_STATUS_READY c ∧
  shutdownGraceTimer (final (start c env (final (stop c env ua))))
  = Some (setTimeout_handle env) ∧
  sessions (final (start c env (final (stop c env ua)))) = sessions ua ∧
  dialogs (final (start c env (final (stop c env ua)))) = dialogs ua ∧
  registrator (final (start c env (final (stop c env ua)))) = registrator ua.
Proof.
  intros Hd Hst Ht.
  apply statuses_distinct_ne in Hd as (Hir & Hic & Hin & Hrc & Hrn & Hcn).
  assert (Hfinal : final (stop c env ua)
                   = set_shutdownGraceTimer (setTimeout_handle env)
                       (set_status (UA_STATUS_USER_CLOSED c) ua))
    by (by rewrite stop_ready).
  rewrite Hfinal.
  rewrite (start_resume _ t) by done.
  by unfold final.
Qed.

(** X17. [networkIsReady()] reconnects the kept transport exactly when
    the status is NOT_READY and the cause is the network error (raising
    a TypeError when no transport is kept); in every other state it
    does nothing.  It never assigns. *)
Theorem networkIsReady_by_state (ua : UA) :
  final (networkIsReady c ua) = ua ∧
  (status ua = UA_STATUS_NOT_READY c →
   error ua = Some (UA_NETWORK_ERROR c) →
   networkIsReady c ua =
   match transport ua with
   | Some _ => (Return tt, ua, [transport_connect])
   | None => (Throw TypeError, ua, [])
   end) ∧
  (status ua ≠ UA_STATUS_NOT_READY c ∨ error ua ≠ Some (UA_NETWORK_ERROR c) →
   networkIsReady c ua = (Return tt, ua, [])).
Proof.
  unfold networkIsReady, bind, read, perform, ret, throw, final.
  cbn [fst snd].
  split_and!.
  - destruct (_ && _); [| done]. by destruct (transport ua).
  - intros Hs He. rewrite !bool_decide_eq_true_2 by congruence. cbn [andb].
    by destruct (transport ua).
  - intros [Hs | He].
    + by rewrite (bool_decide_eq_false_2 (status ua = _)) by congruence.
    + rewrite (bool_decide_eq_false_2 (error ua = _)) by congruence.
      by rewrite andb_false_r.
Qed.

(** X18. On a READY engine [call] checks WebRTC first and the target
    second: without WebRTC it raises WebRtcNotSupportedError whatever
    the target; with WebRTC it raises InvalidTargetError when
    [normalizeUri] gives nothing, and otherwise creates one outgoing
    session on the normalized target.  [message] checks the target
    only.  Neither assigns, and a raised error creates nothing. *)
Theorem call_and_message_when_ready (ua : UA) (target body : string)
    (content_type : js_string) :
  status ua = UA_STATUS_READY c →
  call c env target ua =
  (if negb (isWebRtcSupported env) then (Throw WebRtcNotSupportedError, ua, [])
   else if truthy (normalizeUri env target (domain (configuration ua)))
   then (Return tt, ua,
         [new_OutgoingSession
            (to_string (normalizeUri env target (domain (configuration ua))))])
   else (Throw InvalidTargetError, ua, [])) ∧
  message c env target body content_type ua =
  (if truthy (normalizeUri env target (domain (configuration ua)))
   then (Return tt, ua,
         [new_MessageSender
            (to_string (normalizeUri env target (domain (configuration ua))))
            body content_type])
   else (Throw InvalidTargetError, ua, [])).
Proof.
  intros Hst. unfold call, message, bind, read, perform, throw.
  cbn [fst snd]. rewrite !bool_decide_eq_true_2 by congruence. cbn [negb].
  split.
  - destruct (isWebRtcSupported env); cbn [negb fst snd]; [| done].
    by destruct (truthy _).
  - by destruct (truthy _).
Qed.

End ApiExtras.

Lemma stop_shuts_down_witness :
  trace (stop sip_c quiet_env alice_registered)
  = [registrator_close; session_terminate (SessionObj 3);
     applicant_close (ApplicantObj 4);
     window_setTimeout cb_transport_disconnect "5000"] ∧
  status (final (stop sip_c quiet_env alice_registered)) = 2.
Proof.
  pose proof (stop_shuts_down sip_c quiet_env alice_registered eq_refl)
    as (_ & Htrace & _ & _ & _ & Hfinal).
  split; [exact Htrace | by rewrite Hfinal].
Defined.

Lemma stop_twice_witness :
  stop sip_c quiet_env (final (stop sip_c quiet_env alice_registered))
  = (Throw NotReadyError, final (stop sip_c quiet_env alice_registered), []).
Proof.
  apply (stop_twice sip_c quiet_env alice_registered).
  - exact sip_c_statuses_distinct.
  - reflexivity.
Defined.

Lemma start_by_status_witness :
  (∃ server, result (getNextWsServer quiet_env alice_init) = Return server ∧
             start sip_c quiet_env alice_init
             = (Return tt, alice_init, [new_Transport server])) ∧
  start sip_c quiet_env alice_closed
  = (Return tt, set_status 1 alice_closed, [transport_connect]).
Proof.
  split.
  - apply (start_by_status sip_c quiet_env alice_init
             sip_c_statuses_distinct).
    reflexivity.
  - apply (start_by_status sip_c quiet_env alice_closed
             sip_c_statuses_distinct).
    reflexivity.
Defined.

Lemma stop_then_start_witness :
  status (final (start sip_c quiet_env
                   (final (stop sip_c quiet_env alice_registered)))) = 1 ∧
  shutdownGraceTimer
    (final (start sip_c quiet_env
              (final (stop sip_c quiet_env alice_registered)))) = Some 1.
Proof.
  pose proof (stop_then_start sip_c quiet_env alice_registered
                {| transport_id := 0; server := 2%nat |}
                sip_c_statuses_distinct eq_refl eq_refl)
    as (_ & Hs & Ht & _).
  split; [exact Hs | exact Ht].
Defined.

Lemma networkIsReady_by_state_witness :
  networkIsReady sip_c
    (final (onTransportError sip_c quiet_env first_transport alice_single))
  = (Return tt,
     final (onTransportError sip_c quiet_env first_transport alice_single),
     [transport_connect]) ∧
  networkIsReady sip_c alice_registered = (Return tt, alice_registered, []).
Proof.
  split.
  - apply (networkIsReady_by_state sip_c
             (final (onTransportError sip_c quiet_env first_transport
                       alice_single))).
    + reflexivity.
    + reflexivity.
  - apply (networkIsReady_by_state sip_c alice_registered).
    left. discriminate.
Defined.

Lemma call_and_message_when_ready_witness :
  call sip_c no_webrtc_env "bob" alice_registered
  = (Throw WebRtcNotSupportedError, alice_registered, []) ∧
  message sip_c no_webrtc_env "bob" "hello" None alice_registered
  = (Return tt, alice_registered,
     [new_MessageSender "sip:bob@example.com" "hello" None]) ∧
  call sip_c strict_env "bob" alice_registered
  = (Throw InvalidTargetError, alice_registered, []).
Proof.
  pose proof (call_and_message_when_ready sip_c no_webrtc_env alice_registered
                "bob" "hello" None eq_refl) as [Hcall Hmessage].
  pose proof (call_and_message_when_ready sip_c strict_env alice_registered
                "bob" "hello" None eq_refl) as [Hstrict _].
  split_and!; [exact Hcall | exact Hmessage | exact Hstrict].
Defined.

(** ** The transport events *)

Lemma filter_alter_length {A} (P : A → Prop) `{∀ x, Decision (P x)}
    (f : A → A) (l : list A) (i : nat) (x : A) :
  l !! i = Some x → P x → ¬ P (f x) →
  (length (filter P (alter f i l)) + 1 = length (filter P l))%nat.
Proof.
  revert i. induction l as [| y l IH]; intros i Hi HP HnP; [done |].
  destruct i as [| i]; simpl in Hi.
  - injection Hi as ->.
    change (alter f 0%nat (x :: l)) with (f x :: l).
    rewrite (filter_cons_False P (f x)) by done.
    rewrite (filter_cons_True P x) by done. cbn [length]. lia.
  - change (alter f (S i) (y :: l)) with (y :: alter f i l).
    rewrite !filter_cons.
    specialize (IH i Hi HP HnP).
    destruct (decide (P y)); cbn [length]; lia.
Qed.

Lemma fmap_alter_same {A B} (g : A → B) (f : A → A) (l : list A) (i : nat) :
  (∀ x, g (f x) = g x) → g <$> alter f i l = g <$> l.
Proof.
  intros Hg. revert i. induction l as [| y l IH]; intros i; [done |].
  destruct i as [| i]; simpl.
  - by rewrite Hg.
  - f_equal. apply IH.
Qed.

Section TransportExtras.

Variable c : Constants.
Variable env : Env.

Lemma onTransportClosed_value (ua : UA) (transport : Transport) :
  onTransportClosed c transport ua =
  (Return tt,
   write_server_status (server transport) (WS_SERVER_DISCONNECTED c) ua,
   ((λ idx, transaction_onTransportError idx.2) <$>
      map_to_list (nict (transactions ua))) ++
   ((λ idx, transaction_onTransportError idx.2) <$>
      map_to_list (ict (transactions ua))) ++
   ((λ idx, transaction_onTransportError idx.2) <$>
      map_to_list (nist (transactions ua))) ++
   ((λ idx, transaction_onTransportError idx.2) <$>
      map_to_list (ist (transactions ua))) ++
   (if truthy (contact_pub_gruu ua) then []
    else ((λ idx, session_onTransportError idx.2) <$>
            map_to_list (sessions ua)) ++
         match registrator ua with
         | Some _ => [registrator_onTransportClosed]
         | None => []
         end)).
Proof.
  unfold onTransportClosed.
  unfold bind at 1, assign at 1. cbn [fst snd].
  unfold bind at 1, read at 1. cbn [fst snd].
  unfold bind at 1. cbn [for_in].
  unfold bind at 1. rewrite for_in_perform.
  unfold bind at 1. rewrite for_in_perform.
  unfold bind at 1. rewrite for_in_perform.
  unfold bind at 1. rewrite for_in_perform.
  unfold ret at 1. unfold bind at 1, read at 1. cbn [fst snd].
  change (contact_pub_gruu (write_server_status _ _ _))
    with (contact_pub_gruu ua).
  change (transactions (write_server_status _ _ _)) with (transactions ua).
  destruct (truthy (contact_pub_gruu ua)); cbn [negb].
  - unfold ret. cbn [app]. by rewrite ?app_nil_r, <- ?app_assoc.
  - rewrite closeSessionsOnTransportError_run.
    change (sessions (write_server_status _ _ _)) with (sessions ua).
    change (registrator (write_server_status _ _ _)) with (registrator ua).
    cbn [app]. by rewrite ?app_nil_r, <- ?app_assoc.
Qed.


Lemma onTransportError_pool (ua : UA) (transport : Transport) :
  outbound_proxy_set (configuration (final (onTransportError c env transport ua)))
  = alter (set_ws_status (WS_SERVER_ERROR c)) (server transport)
      (outbound_proxy_set (configuration ua)).
Proof.
  destruct (result (getNextWsServer env
              (write_server_status (server transport) (WS_SERVER_ERROR c) ua)))
    as [[r |] | e] eqn:Hnext.
  - by rewrite (onTransportError_failover c env ua transport r).
  - by rewrite (onTransportError_exhausted_run c env ua transport Hnext).
  - discriminate Hnext.
Qed.

(** X20. When the table's error mark is the 2 that the selector skips,
    the draw lies in [0, 1) and some other server is not excluded,
    [onTransportError] opens one new transport, on a server other than
    the failed one, that is not excluded and that no other server that
    is not excluded outweighs; it tells nobody and leaves status and
    cause as they were. *)
Theorem onTransportError_fails_over (ua : UA) (transport : Transport) :
  WS_SERVER_ERROR c = 2 →
  (0 <= Math_random env)%Q → (Math_random env < 1)%Q →
  (∃ j s, outbound_proxy_set (configuration ua) !! j = Some s ∧
          j ≠ server transport ∧ ws_status s ≠ 2) →
  ∃ r s,
    onTransportError c env transport ua
    = (Return tt,
       write_server_status (server transport) (WS_SERVER_ERROR c) ua,
       [new_Transport (Some r)]) ∧
    r ≠ server transport ∧
    outbound_proxy_set (configuration ua) !! r = Some s ∧
    ws_status s ≠ 2 ∧
    ∀ j s', outbound_proxy_set (configuration ua) !! j = Some s' →
            j ≠ server transport → ws_status s' ≠ 2 → weight s' ≤ weight s.
Proof.
  intros Hmark Hq0 Hq1 (j & sj & Hj & Hjne & Hjs).
  set (ua' := write_server_status (server transport) (WS_SERVER_ERROR c) ua).
  assert (Hother : ∀ i, i ≠ server transport →
            outbound_proxy_set (configuration ua') !! i
            = outbound_proxy_set (configuration ua) !! i).
  { intros i Hi. by apply write_server_status_lookup_ne. }
  destruct (getNextWsServer_returns env ua' Hq0 Hq1) as [r Hr].
  { exists sj. split; [| done]. apply list_elem_of_lookup. exists j.
    by rewrite Hother. }
  destruct (getNextWsServer_some env ua' r Hr) as (s & Hs & Hst & Hmax).
  assert (Hrne : r ≠ server transport).
  { intros ->. unfold ua', write_server_status, set_outbound_proxy_set in Hs.
    cbn [configuration outbound_proxy_set] in Hs.
    rewrite list_lookup_alter_eq in Hs.
    destruct (outbound_proxy_set (configuration ua) !! server transport);
      [| discriminate].
    injection Hs as <-. by apply Hst. }
  exists r, s. split_and!; [| done | by rewrite <- Hother | done |].
  - by apply onTransportError_failover.
  - intros i s' Hi Hine Hs'. apply (Hmax i s'); [| done]. by rewrite Hother.
Qed.

(** X21. When the table's error mark is the 2 that the selector skips,
    [onTransportError] on a server that was not excluded leaves one
    selectable server less and the array as long as it was: a pool of
    [n] selectable servers is exhausted by [n] such errors. *)
Theorem onTransportError_shrinks_pool (ua : UA) (transport : Transport)
    (s : WsServer) :
  WS_SERVER_ERROR c = 2 →
  outbound_proxy_set (configuration ua) !! server transport = Some s →
  ws_status s ≠ 2 →
  (length (selectable
             (outbound_proxy_set
                (configuration (final (onTransportError c env transport ua)))))
   + 1
   = length (selectable (outbound_proxy_set (configuration ua))))%nat ∧
  length (outbound_proxy_set
            (configuration (final (onTransportError c env transport ua))))
  = length (outbound_proxy_set (configuration ua)).
Proof.
  intros Hmark Hs Hst. rewrite onTransportError_pool. split.
  - unfold selectable.
    apply (filter_alter_length _ _ _ _ s); [done | done |].
    simpl. rewrite Hmark. by intros H.
  - apply length_alter.
Qed.

(** X22. [onTransportConnected] on an engine that the user did not
    close returns normally, keeps the transport, and handles the
    registration by the [auto_register] setting: with it, an existing
    registrator is resumed and a missing one is created, never both;
    without it the registrator is left alone.  [connect] is emitted
    last. *)
Theorem onTransportConnected_registers (ua : UA) (t : Transport) :
  status ua ≠ UA_STATUS_USER_CLOSED c →
  result (onTransportConnected c env t ua) = Return tt ∧
  transport (final (onTransportConnected c env t ua))
  = Some t ∧
  trace (onTransportConnected c env t ua)
  = (if auto_register (configuration ua) then
       match registrator ua with
       | Some _ => [registrator_onTransportConnected]
       | None => [new_Registrator]
       end
     else []) ++ [emit "connect"] ∧
  registrator (final (onTransportConnected c env t ua))
  = (if auto_register (configuration ua) then
       match registrator ua with
       | Some r => Some r
       | None => Some (Registrator_new env)
       end
     else registrator ua).
Proof.
  intros Hst. rewrite onTransportConnected_open by done.
  unfold result, final, trace. cbn [fst snd].
  split_and!; [done | | done |].
  - destruct (auto_register (configuration ua)); [| done].
    by destruct (registrator ua).
  - destruct (auto_register (configuration ua)); [| done].
    destruct (registrator ua) as [r |] eqn:Hr; [| done].
    cbn. by rewrite Hr.
Qed.

End TransportExtras.


Lemma onTransportError_fails_over_witness :
  ∃ r s,
    onTransportError sip_c quiet_env second_transport alice_registered
    = (Return tt,
       write_server_status 2%nat 2 alice_registered,
       [new_Transport (Some r)]) ∧
    r ≠ 2%nat ∧
    outbound_proxy_set (configuration alice_registered) !! r = Some s ∧
    ws_status s ≠ 2 ∧
    ∀ j s', outbound_proxy_set (configuration alice_registered) !! j = Some s' →
            j ≠ 2%nat → ws_status s' ≠ 2 → weight s' ≤ weight s.
Proof.
  apply (onTransportError_fails_over sip_c quiet_env alice_registered
           second_transport).
  - reflexivity.
  - discriminate.
  - reflexivity.
  - exists 0%nat,
      {| ws_uri := "ws://a.example.com/"; weight := 1; ws_status := 0 |}.
    split_and!; [reflexivity | discriminate | discriminate].
Defined.

Lemma onTransportError_shrinks_pool_witness :
  (length (selectable
             (outbound_proxy_set
                (configuration
                   (final (onTransportError sip_c quiet_env second_transport
                             alice_registered)))))
   + 1
   = length (selectable (outbound_proxy_set (configuration alice_registered))))%nat ∧
  length (outbound_proxy_set
            (configuration
               (final (onTransportError sip_c quiet_env second_transport
                         alice_registered))))
  = length (outbound_proxy_set (configuration alice_registered)).
Proof.
  apply (onTransportError_shrinks_pool sip_c quiet_env alice_registered
           second_transport
           {| ws_uri := "ws://c.example.com/"; weight := 3; ws_status := 0 |}).
  - reflexivity.
  - reflexivity.
  - discriminate.
Defined.

Lemma onTransportConnected_registers_witness :
  trace (onTransportConnected sip_c quiet_env first_transport alice_init)
  = [new_Registrator; emit "connect"] ∧
  trace (onTransportConnected sip_c quiet_env first_transport
           (new_UA sip_c manual_settings))
  = [emit "connect"].
Proof.
  split.
  - pose proof (onTransportConnected_registers sip_c quiet_env alice_init
                  first_transport) as (_ & _ & Htrace & _); [discriminate |].
    exact Htrace.
  - pose proof (onTransportConnected_registers sip_c quiet_env
                  (new_UA sip_c manual_settings) first_transport)
      as (_ & _ & Htrace & _); [discriminate |].
    exact Htrace.
Defined.

(** ** What no entry point does *)

Section Frame.

Variable c : Constants.

Lemma keeps_registries_refl (ua : UA) : keeps_registries ua ua.
Proof. by unfold keeps_registries. Qed.

Lemma keeps_registries_mark (ua : UA) (r : server_ref) (v : Z) :
  keeps_registries ua (write_server_status r v ua).
Proof.
  unfold keeps_registries, write_server_status, set_outbound_proxy_set.
  cbn. split_and!; try done. by apply fmap_alter_same.
Qed.

(** X23. No entry point of the engine itself files or removes a
    dialog, a session, an applicant or a transaction (that is left to
    the collaborators it calls), touches the contact or the user,
    domain and [auto_register] settings, or adds, removes, reorders,
    renames or reweighs a candidate: of a candidate only the status is
    ever written. *)
Theorem entry_points_keep_registries (env : Env) (m : M unit) (ua : UA) :
  entry_point c env m → keeps_registries ua (final (m ua)).
Proof.
  intros [| | all | | target | target body content_type | | | tr
          | tr | tr | request].
  - replace (final (networkIsReady c ua)) with ua;
      [apply keeps_registries_refl |].
    unfold networkIsReady, bind, read, final. cbn [fst snd].
    destruct (_ && _); [| done]. by destruct (transport ua).
  - replace (final (register c ua)) with ua; [apply keeps_registries_refl |].
    unfold register, bind, read, final. cbn [fst snd].
    case_bool_decide; [| done]. by destruct (registrator ua).
  - replace (final (deregister c all ua)) with ua;
      [apply keeps_registries_refl |].
    unfold deregister, bind, read, final. cbn [fst snd].
    case_bool_decide; [| done]. by destruct (registrator ua).
  - unfold bind. rewrite isRegistered_value. unfold ret, final. cbn [fst snd].
    apply keeps_registries_refl.
  - replace (final (call c env target ua)) with ua;
      [apply keeps_registries_refl |].
    unfold call, bind, read, final. cbn [fst snd].
    case_bool_decide; cbn [negb]; [| done].
    destruct (isWebRtcSupported env); cbn [negb fst snd]; [| done].
    by destruct (truthy _).
  - replace (final (message c env target body content_type ua)) with ua;
      [apply keeps_registries_refl |].
    unfold message, bind, read, final. cbn [fst snd].
    case_bool_decide; cbn [negb fst snd]; [| done].
    by destruct (truthy _).
  - destruct (decide (status ua = UA_STATUS_READY c)) as [Hst | Hst].
    + rewrite stop_ready by done. by unfold final, keeps_registries.
    + replace (final (stop c env ua)) with ua;
        [apply keeps_registries_refl |].
      unfold stop, bind, read, final. cbn [fst snd].
      by rewrite bool_decide_eq_false_2 by done.
  - unfold start, bind, read, assign, perform, ret, final.
    cbn [fst snd].
    case_bool_decide as Hinit.
    + rewrite getNextWsServer_run.
      destruct (result (getNextWsServer env ua)) eqn:Hr;
        [apply keeps_registries_refl | discriminate Hr].
    + case_bool_decide as Hclosed.
      * change (transport (set_status _ ua)) with (transport ua).
        by destruct (transport ua).
      * case_bool_decide; apply keeps_registries_refl.
  - rewrite onTransportClosed_value. unfold final. cbn [fst snd].
    apply keeps_registries_mark.
  - destruct (result (getNextWsServer env
                 (write_server_status (server tr) (WS_SERVER_ERROR c) ua)))
      as [[r |] | e] eqn:Hnext.
    + rewrite (onTransportError_failover c env ua tr r) by done.
      apply keeps_registries_mark.
    + rewrite (onTransportError_exhausted_run c env ua tr Hnext).
      apply (keeps_registries_mark ua).
    + discriminate Hnext.
  - destruct (decide (status ua = UA_STATUS_USER_CLOSED c)) as [Hst | Hst].
    + rewrite onTransportConnected_closed by done.
      apply (keeps_registries_mark ua).
    + rewrite onTransportConnected_open by done.
      unfold final. cbn [fst snd].
      destruct (auto_register (configuration ua));
        [destruct (registrator ua) |]; apply (keeps_registries_mark ua).
  - destruct (receiveRequest_replies_bound c env ua request) as (_ & -> & _).
    apply keeps_registries_refl.
Qed.

(** X24. What one entry point can do to status and cause: leave both;
    or take READY to USER_CLOSED, or USER_CLOSED to READY, leaving the
    cause; or set NOT_READY together with the network error; or set
    READY together with the empty cause.  The cause is never written
    on its own. *)
Theorem status_and_cause_transitions (env : Env) (m : M unit) (ua : UA) :
  entry_point c env m →
  (status (final (m ua)) = status ua ∧ error (final (m ua)) = error ua) ∨
  (status ua = UA_STATUS_READY c ∧
   status (final (m ua)) = UA_STATUS_USER_CLOSED c ∧
   error (final (m ua)) = error ua) ∨
  (status ua = UA_STATUS_USER_CLOSED c ∧
   status (final (m ua)) = UA_STATUS_READY c ∧
   error (final (m ua)) = error ua) ∨
  (status (final (m ua)) = UA_STATUS_NOT_READY c ∧
   error (final (m ua)) = Some (UA_NETWORK_ERROR c)) ∨
  (status (final (m ua)) = UA_STATUS_READY c ∧
   error (final (m ua)) = None).
Proof. apply entry_point_state. Qed.

End Frame.

Lemma entry_points_keep_registries_witness :
  keeps_registries alice_registered
    (final (onTransportError sip_c quiet_env second_transport alice_registered)).
Proof.
  apply (entry_points_keep_registries sip_c quiet_env
           (onTransportError sip_c quiet_env second_transport)
           alice_registered).
  apply ep_onTransportError.
Defined.

Lemma status_and_cause_transitions_witness :
  (status (final (stop sip_c quiet_env alice_registered))
   = status alice_registered ∧
   error (final (stop sip_c quiet_env alice_registered))
   = error alice_registered) ∨
  (status alice_registered = UA_STATUS_READY sip_c ∧
   status (final (stop sip_c quiet_env alice_registered))
   = UA_STATUS_USER_CLOSED sip_c ∧
   error (final (stop sip_c quiet_env alice_registered))
   = error alice_registered) ∨
  (status alice_registered = UA_STATUS_USER_CLOSED sip_c ∧
   status (final (stop sip_c quiet_env alice_registered))
   = UA_STATUS_READY sip_c ∧
   error (final (stop sip_c quiet_env alice_registered))
   = error alice_registered) ∨
  (status (final (stop sip_c quiet_env alice_registered))
   = UA_STATUS_NOT_READY sip_c ∧
   error (final (stop sip_c quiet_env alice_registered))
   = Some (UA_NETWORK_ERROR sip_c)) ∨
  (status (final (stop sip_c quiet_env alice_registered))
   = UA_STATUS_READY sip_c ∧
   error (final (stop sip_c quiet_env alice_registered)) = None).
Proof.
  apply (status_and_cause_transitions sip_c quiet_env
           (stop sip_c quiet_env) alice_registered).
  apply ep_stop.
Defined.

(** * Properties of the configuration loader and the constructor *)

Section LoaderProperties.

Variable g : Grammar.

Lemma loadConfig_Some (configuration : UserConfiguration) (settings : Settings) :
  loadConfig g configuration = Some settings →
  ∃ l, pre_configuration (cfg_outbound_proxy_set configuration) = Some l ∧
       mandatory_ok g configuration (Some l) = true ∧
       optional_ok g configuration = true ∧
       settings = post_configuration g configuration l.
Proof.
  unfold loadConfig.
  destruct (pre_configuration (cfg_outbound_proxy_set configuration))
    as [l |] eqn:Hpre; [| done].
  destruct (mandatory_ok g configuration (Some l)) eqn:Hm; [| done].
  destruct (optional_ok g configuration) eqn:Ho; [| done].
  cbn. intros [= <-]. by exists l.
Qed.



Lemma post_configuration_auto_register (configuration : UserConfiguration)
    (l : list RawServer) :
  st_auto_register (post_configuration g configuration l) = true.
Proof.
  unfold post_configuration, bool_or. cbn.
  by destruct (truthy_bool _).
Qed.

(** X26. Whatever the configuration says about [auto_register], the
    settings that [loadConfig] produces have it switched on: a [false]
    is skipped like a parameter that is not given, and the default is
    [true]. *)
Theorem loadConfig_auto_register_on (configuration : UserConfiguration)
    (settings : Settings) :
  loadConfig g configuration = Some settings →
  st_auto_register settings = true.
Proof.
  intros (l & _ & _ & _ & ->)%loadConfig_Some.
  apply post_configuration_auto_register.
Qed.

Lemma post_configuration_servers (configuration : UserConfiguration)
    (l : list RawServer) :
  length (st_outbound_proxy_set (post_configuration g configuration l))
  = length l ∧
  ∀ i entry, l !! i = Some entry →
    ∃ s, st_outbound_proxy_set (post_configuration g configuration l) !! i
         = Some s ∧
         ls_status s = 0 ∧
         ls_host s = host entry ∧
         ls_weight s = default 0 (raw_weight entry).
Proof.
  split.
  - unfold post_configuration. cbn. by rewrite length_fmap.
  - intros i entry Hi. eexists. split.
    + unfold post_configuration. cbn. rewrite list_lookup_fmap, Hi. done.
    + cbn. split_and!; [done | done |].
      unfold num_or. destruct (raw_weight entry) as [w |]; [| done].
      cbn. destruct (Z.eqb_spec w 0) as [-> | ?]; done.
Qed.

Lemma loadConfig_nonempty (configuration : UserConfiguration)
    (settings : Settings) :
  loadConfig g configuration = Some settings →
  ∃ l, pre_configuration (cfg_outbound_proxy_set configuration) = Some l ∧
       l ≠ [] ∧ settings = post_configuration g configuration l.
Proof.
  intros (l & Hpre & Hm & _ & ->)%loadConfig_Some.
  exists l. split_and!; [done | | done].
  intros ->. unfold mandatory_ok, check_outbound_proxy_set in Hm.
  by rewrite bool_decide_eq_true_2 in Hm by done.
Qed.


(** X28. The answer timeout that [loadConfig] produces is the given
    number of seconds times 1000 when that number lies between 1 and
    600, and 30000 when none or 0 is given; a negative number or one
    above 600 makes [loadConfig] refuse the configuration. *)
Theorem loadConfig_no_answer_timeout (configuration : UserConfiguration) :
  (∀ settings, loadConfig g configuration = Some settings →
     1000 ≤ st_no_answer_timeout settings ≤ 600000 ∧
     st_no_answer_timeout settings
     = match cfg_no_answer_timeout configuration with
       | Some n => if bool_decide (n = 0) then 30000 else n * 1000
       | None => 30000
       end) ∧
  (∀ n, cfg_no_answer_timeout configuration = Some n →
        n < 0 ∨ 600 < n → loadConfig g configuration = None).
Proof.
  split.
  - intros settings (l & _ & _ & Hopt & ->)%loadConfig_Some.
    unfold optional_ok in Hopt.
    apply andb_prop in Hopt as [Hopt _].
    apply andb_prop in Hopt as [_ Hna].
    unfold post_configuration, num_or. cbn.
    destruct (cfg_no_answer_timeout configuration) as [n |];
      [| split; [lia | done]].
    unfold optional_num, check_no_answer_timeout, js_Number, truthy_num in Hna.
    destruct (decide (n = 0)) as [Hn | Hn].
    + subst n. cbn. split; [lia | done].
    + rewrite bool_decide_eq_false_2 by done.
      rewrite (proj2 (Z.eqb_neq n 0) Hn) in *. cbn in Hna |- *.
      destruct (bool_decide (n < 0)) eqn:Hlow; [done |].
      destruct (bool_decide (600 < n)) eqn:Hhigh; [done |].
      apply bool_decide_eq_false in Hlow, Hhigh. split; [lia | done].
  - intros n Hn Hrange. unfold loadConfig.
    destruct (pre_configuration (cfg_outbound_proxy_set configuration))
      as [l |]; [| done].
    destruct (mandatory_ok g configuration _); cbn [negb]; [| done].
    assert (Hopt : optional_ok g configuration = false); [| by rewrite Hopt].
    unfold optional_ok. rewrite Hn.
    assert (Hcheck : optional_num (Some n) check_no_answer_timeout = false).
    { unfold optional_num, check_no_answer_timeout, js_Number, truthy_num.
      rewrite (proj2 (Z.eqb_neq n 0)) by lia. cbn.
      destruct Hrange as [Hlow | Hhigh].
      - by rewrite (bool_decide_eq_true_2 (n < 0)) by done.
      - rewrite (bool_decide_eq_true_2 (600 < n)) by done.
        by rewrite orb_true_r. }
    rewrite Hcheck. by rewrite andb_false_r, andb_false_l.
Qed.

End LoaderProperties.


Lemma loadConfig_auto_register_on_witness :
  cfg_auto_register alice_loaded = Some false ∧
  ∃ settings, loadConfig plain_grammar alice_loaded = Some settings ∧
              st_auto_register settings = true.
Proof.
  split; [reflexivity |].
  eexists. split; [reflexivity |].
  apply (loadConfig_auto_register_on plain_grammar alice_loaded).
  reflexivity.
Defined.


Lemma loadConfig_no_answer_timeout_witness :
  (∀ settings, loadConfig plain_grammar alice_loaded = Some settings →
     1000 ≤ st_no_answer_timeout settings ≤ 600000 ∧
     st_no_answer_timeout settings = 45000) ∧
  loadConfig plain_grammar (alice_configuration two_proxies None (Some 601))
  = None.
Proof.
  split.
  - apply (loadConfig_no_answer_timeout plain_grammar alice_loaded).
  - apply (proj2 (loadConfig_no_answer_timeout plain_grammar
                    (alice_configuration two_proxies None (Some 601)))
             601); [reflexivity | lia].
Defined.

(** ** From the constructor to the first connection *)

Section Construction.

Variable c : Constants.
Variable g : Grammar.
Variable env : Env.

Lemma UA_new_Constructed (given : option UserConfiguration)
    (ua : UA) (events : list string) :
  UA_new c g given = Constructed ua events →
  ∃ cfg settings,
    given = Some cfg ∧ loadConfig g cfg = Some settings ∧
    ua = new_UA c (configuration_of settings) ∧ events = UA_events.
Proof.
  unfold UA_new. destruct given as [cfg |]; cbn; [| done].
  destruct (loadConfig g cfg) as [settings |] eqn:Hload; [| done].
  intros [= <- <-]. by exists cfg, settings.
Qed.

(** X29. On an engine that the constructor returns, [start()] with a
    draw in [0, 1) opens a transport on one of the configured servers,
    and on one that no configured server outweighs; it returns normally
    and leaves the engine in INIT. *)
Theorem constructed_engine_starts (given : option UserConfiguration)
    (ua : UA) (events : list string) :
  UA_new c g given = Constructed ua events →
  (0 <= Math_random env)%Q → (Math_random env < 1)%Q →
  ∃ r s,
    start c env ua = (Return tt, ua, [new_Transport (Some r)]) ∧
    outbound_proxy_set (configuration ua) !! r = Some s ∧
    ∀ j s', outbound_proxy_set (configuration ua) !! j = Some s' →
            weight s' ≤ weight s.
Proof.
  intros (cfg & settings & -> & Hload & -> & ->)%UA_new_Constructed Hq0 Hq1.
  apply loadConfig_nonempty in Hload as (l & _ & Hne & ->).
  destruct (post_configuration_servers g cfg l) as [Hlen Hall].
  set (settings := post_configuration g cfg l) in *.
  set (ua := new_UA c (configuration_of settings)).
  assert (Hstatus : ∀ j s', outbound_proxy_set (configuration ua) !! j
                            = Some s' → ws_status s' = 0).
  { intros j s' Hj. unfold ua, settings in Hj. cbn in Hj.
    rewrite !list_lookup_fmap in Hj.
    destruct (l !! j) as [entry |]; cbn in Hj; [| discriminate].
    by injection Hj as <-. }
  destruct (getNextWsServer_returns env ua Hq0 Hq1) as [r Hr].
  { destruct l as [| entry l]; [done |].
    destruct (Hall 0%nat entry eq_refl) as (s & Hs & Hst & _).
    exists (server_of s). split.
    - apply list_elem_of_lookup. exists 0%nat. unfold ua.
      cbn [configuration new_UA configuration_of outbound_proxy_set].
      by rewrite list_lookup_fmap, Hs.
    - cbn. by rewrite Hst. }
  destruct (getNextWsServer_some env ua r Hr) as (s & Hs & _ & Hmax).
  exists r, s. split_and!; [| done |].
  - unfold start, bind, read, perform. cbn [fst snd].
    rewrite bool_decide_eq_true_2 by done.
    by rewrite getNextWsServer_run, Hr.
  - intros j s' Hj. apply (Hmax j s' Hj). by rewrite (Hstatus j s' Hj).
Qed.

(** X30. On an engine that the constructor returns, the first
    [onTransportConnected] creates the registrator, whatever the
    configuration said about [auto_register], makes the engine READY
    without cause and emits [connect]; after it [register()] reaches
    the registrator. *)
Theorem constructed_engine_first_connection
    (given : option UserConfiguration) (ua : UA)
    (events : list string) (t : Transport) :
  UA_new c g given = Constructed ua events →
  UA_STATUS_INIT c ≠ UA_STATUS_USER_CLOSED c →
  onTransportConnected c env t ua
  = (Return tt,
     set_error None
       (set_status (UA_STATUS_READY c)
          (set_registrator (Registrator_new env)
             (write_server_status (server t) (WS_SERVER_READY c)
                (set_transport t ua)))),
     [new_Registrator; emit "connect"]) ∧
  register c (final (onTransportConnected c env t ua))
  = (Return tt, final (onTransportConnected c env t ua), [registrator_register]).
Proof.
  intros (cfg & settings & -> & Hload & -> & ->)%UA_new_Constructed Hic.
  apply loadConfig_Some in Hload as (l & _ & _ & _ & ->).
  pose proof (post_configuration_auto_register g cfg l) as Hauto.
  set (settings := post_configuration g cfg l) in *.
  assert (Hrun :
    onTransportConnected c env t (new_UA c (configuration_of settings))
    = (Return tt,
       set_error None
         (set_status (UA_STATUS_READY c)
            (set_registrator (Registrator_new env)
               (write_server_status (server t) (WS_SERVER_READY c)
                  (set_transport t (new_UA c (configuration_of settings)))))),
       [new_Registrator; emit "connect"])).
  { rewrite onTransportConnected_open by exact Hic.
    cbn [configuration new_UA configuration_of auto_register
         registrator].
    by rewrite Hauto. }
  rewrite Hrun. split; [done |].
  unfold final. cbn [fst snd].
  by apply (register_ready c _ (Registrator_new env) false).
Qed.

End Construction.

Lemma constructed_engine_starts_witness :
  ∃ ua events r s,
    UA_new sip_c plain_grammar (Some alice_loaded) = Constructed ua events ∧
    start sip_c quiet_env ua = (Return tt, ua, [new_Transport (Some r)]) ∧
    outbound_proxy_set (configuration ua) !! r = Some s ∧
    ∀ j s', outbound_proxy_set (configuration ua) !! j = Some s' →
            weight s' ≤ weight s.
Proof.
  eexists _, _.
  destruct (constructed_engine_starts sip_c plain_grammar quiet_env
              (Some alice_loaded) _ _ eq_refl)
    as (r & s & Hstart); [discriminate | reflexivity |].
  exists r, s. split; [reflexivity | exact Hstart].
Defined.

Lemma constructed_engine_first_connection_witness :
  ∃ ua events,
    UA_new sip_c plain_grammar (Some alice_loaded) = Constructed ua events ∧
    trace (onTransportConnected sip_c quiet_env first_transport ua)
    = [new_Registrator; emit "connect"] ∧
    result (register sip_c
              (final (onTransportConnected sip_c quiet_env first_transport ua)))
    = Return tt.
Proof.
  eexists _, _. split; [reflexivity |].
  destruct (constructed_engine_first_connection sip_c plain_grammar quiet_env
              (Some alice_loaded) _ _ first_transport eq_refl)
    as [Hrun Hreg]; [discriminate |].
  split; [by rewrite Hrun | by rewrite Hreg].
Defined.
